(** * Cinescope: the FDX script parser ([script_parser.py])

    A shallow embedding of [ScriptElement] and [ScriptParser.parse_file],
    followed by the properties of the classification loop: which element
    each paragraph produces, how the current-character reference evolves,
    what is printed, and what happens when the document cannot be read. *)

From Stdlib Require Import List String Ascii Arith Lia DecimalString.
Import ListNotations.
Open Scope string_scope.
Open Scope list_scope.

(** ** Data model *)

(** [class ScriptElement]: the five attributes set by [__init__].  Every
    attribute except [type] defaults to [None]. *)
Record ScriptElement := mkScriptElement {
  type : string;
  text : option string;
  character_name : option string;
  dialogue_text : option string;
  original_line_num : option nat
}.

(** [class ScriptParser]: the two attributes set by [__init__].  The
    current-character attribute refers to an element that was appended to
    [parsed_elements]; elements are never mutated after construction, so
    the reference is modelled by the element's value. *)
Record ScriptParser := mkScriptParser {
  parsed_elements : list ScriptElement;
  _current_character_element : option ScriptElement
}.

(** [ScriptParser.__init__] *)
Definition new_ScriptParser : ScriptParser :=
  {| parsed_elements := []; _current_character_element := None |}.

(** A paragraph of the decoded document that the loop could read: the
    values of the two attributes it reads from it, both strings.  A
    paragraph that cannot be read ends the sequence, see [Paragraphs]. *)
Record fdx_paragraph := mkParagraph {
  paragraph_type : string;
  plain_text : string
}.


(** The exception classes the two handlers of [parse_file] tell apart:
    [FileNotFoundError] (and subclasses), any other [Exception], and a
    [BaseException] that is not an [Exception]. *)
Inductive ExceptionClass := FileNotFoundError | Exception | BaseException.

Record PyException := mkException {
  exc_class : ExceptionClass;
  exc_str : string
}.

(** What the loop gets out of [screenplay.paragraphs]: the paragraphs it
    fetches and reads, in order, after which the iteration either ends or
    raises.  [YieldsThenRaises ps e] stands for every way in which the
    [for] statement or the two attribute reads at the top of its body raise
    [e] once the paragraphs [ps] have been processed: an attribute that is
    not iterable ([ps = []]), an iterator that fails, a paragraph whose
    [paragraph_type] or [plain_text] cannot be read.  Both reads come before
    anything is appended, so an iteration that raises changes nothing. *)
Inductive Paragraphs :=
| Yields (ps : list fdx_paragraph)
| YieldsThenRaises (ps : list fdx_paragraph) (e : PyException).

(** The object [read_fdx] returns.  [paragraphs] is [None] when the object
    has no attribute of that name ([hasattr] is false); [dir_repr] is what
    [dir(screenplay)] prints as. *)
Record FinalDraft := mkFinalDraft {
  dir_repr : string;
  paragraphs : option Paragraphs
}.

(** What a call of the external [read_fdx] can do: raise, or return a
    value, which may be Python's [None]. *)
Inductive read_fdx_result :=
| Raise (e : PyException)
| Value (screenplay : option FinalDraft).

(** How a call of [parse_file] ends. *)
Inductive Completion :=
| Return (v : list ScriptElement)
| Propagate (e : PyException).

(** The observable outcome of one call of [parse_file]: the parser object
    afterwards, the lines printed, and the completion. *)
Record Run := mkRun {
  self_after : ScriptParser;
  printed : list string;
  completion : Completion
}.

(** The state the loop of [parse_file] threads through its iterations:
    the parser object, the local [line_number] and the standard output. *)
Record LoopState := mkLoopState {
  self : ScriptParser;
  line_number : nat;
  stdout : list string
}.

(** ** Operations *)

(** [str(n)] for a non-negative integer. *)
Definition str_of_int (n : nat) : string :=
  NilZero.string_of_uint (Nat.to_uint n).

(** [self.parsed_elements.append(e)] followed by the assignment of [c] to
    [self._current_character_element]. *)
Definition append_and_set (st : LoopState) (e : ScriptElement)
    (c : option ScriptElement) (n : nat) : LoopState :=
  {| self := {| parsed_elements := parsed_elements (self st) ++ [e];
                _current_character_element := c |};
     line_number := n;
     stdout := stdout st |}.

(** [print(s)] *)
Definition print (st : LoopState) (s : string) : LoopState :=
  {| self := self st; line_number := line_number st; stdout := stdout st ++ [s] |}.

(** The body of [for fdx_paragraph in screenplay.paragraphs].  The test
    [if self._current_character_element:] is a test against [None]:
    [ScriptElement] defines neither [__bool__] nor [__len__], so every
    instance is true. *)
Definition loop_body (st : LoopState) (fdx_paragraph : fdx_paragraph) : LoopState :=
  let line_number := S (line_number st) in
  let paragraph_type := paragraph_type fdx_paragraph in
  let paragraph_text := plain_text fdx_paragraph in
  if paragraph_type =? "Scene Heading" then
    append_and_set st
      (mkScriptElement "scene_heading" (Some paragraph_text) None None (Some line_number))
      None line_number
  else if paragraph_type =? "Character" then
    let new_character_element :=
      mkScriptElement "character" None (Some paragraph_text) None (Some line_number) in
    append_and_set st new_character_element (Some new_character_element) line_number
  else if paragraph_type =? "Parenthetical" then
    append_and_set st
      (mkScriptElement "parenthetical" (Some paragraph_text) None None (Some line_number))
      (_current_character_element (self st)) line_number
  else if paragraph_type =? "Dialogue" then
    match _current_character_element (self st) with
    | Some current =>
        append_and_set st
          (mkScriptElement "dialogue" (Some paragraph_text) (character_name current)
             (Some paragraph_text) (Some line_number))
          None line_number
    | None =>
        append_and_set
          (print st ("Warning: Dialogue found without preceding character at line "
                     ++ str_of_int line_number ++ ": '" ++ paragraph_text ++ "'")%string)
          (mkScriptElement "action" (Some paragraph_text) None None (Some line_number))
          None line_number
    end
  else if paragraph_type =? "Action" then
    append_and_set st
      (mkScriptElement "action" (Some paragraph_text) None None (Some line_number))
      None line_number
  else if paragraph_type =? "Transition" then
    append_and_set st
      (mkScriptElement "transition" (Some paragraph_text) None None (Some line_number))
      None line_number
  else
    append_and_set st
      (mkScriptElement "action" (Some paragraph_text) None None (Some line_number))
      None line_number.

(** The state in which the loop is entered: both attributes were reset at
    the top of [parse_file], [line_number = 0], nothing printed yet. *)
Definition loop_entry : LoopState :=
  {| self := new_ScriptParser; line_number := 0; stdout := [] |}.

(** The whole [for] loop over the paragraphs, from [loop_entry]. *)
Definition run_loop (ps : list fdx_paragraph) : LoopState :=
  fold_left loop_body ps loop_entry.

Section ParseFile.

(** The external decoder, [fdx.read_fdx]. *)
Variable read_fdx : string -> read_fdx_result.

(** [ScriptParser.parse_file].  The first two assignments overwrite
    whatever the object held, so the result does not read [self0].  The
    [try] block encloses the call of [read_fdx] and the loop alike, so the
    two handlers also receive what the loop raises; they print and return
    a new empty list, and leave on the object what the loop had appended. *)
Definition parse_file (self0 : ScriptParser) (script_path : string) : Run :=
  let self1 := {| parsed_elements := []; _current_character_element := None |} in
  match read_fdx script_path with
  | Raise e =>
      match exc_class e with
      | FileNotFoundError =>
          mkRun self1 [("Error: Script file not found at " ++ script_path)%string] (Return [])
      | Exception =>
          mkRun self1 [("An error occurred during FDX script parsing: " ++ exc_str e)%string]
            (Return [])
      | BaseException => mkRun self1 [] (Propagate e)
      end
  | Value None =>
      mkRun self1 ["Error: read_fdx returned None. Cannot proceed with parsing."]
        (Return [])
  | Value (Some screenplay) =>
      match paragraphs screenplay with
      | None =>
          mkRun self1
            ["DEBUG: WARNING: 'screenplay' object DOES NOT have 'paragraphs' attribute.";
             ("DEBUG: Available attributes on 'screenplay' object: "
              ++ dir_repr screenplay)%string]
            (Return [])
      | Some (Yields ps) =>
          let st := run_loop ps in
          mkRun (self st) (stdout st) (Return (parsed_elements (self st)))
      | Some (YieldsThenRaises ps e) =>
          let st := run_loop ps in
          match exc_class e with
          | FileNotFoundError =>
              mkRun (self st)
                (stdout st ++ [("Error: Script file not found at " ++ script_path)%string])
                (Return [])
          | Exception =>
              mkRun (self st)
                (stdout st ++
                 [("An error occurred during FDX script parsing: " ++ exc_str e)%string])
                (Return [])
          | BaseException => mkRun (self st) (stdout st) (Propagate e)
          end
      end
  end.

End ParseFile.

(** ** The claim about clearing the state, as the specification words it *)

(** "After processing any paragraph whose kind is not Parenthetical, the
    state is empty." *)
Definition state_empty_after_every_non_parenthetical : Prop :=
  forall (st : LoopState) (p : fdx_paragraph),
    paragraph_type p <> "Parenthetical" ->
    _current_character_element (self (loop_body st p)) = None.

(** ** The claim about failures, as the specification words it *)

(** The document could not be located or decoded, or lacks its paragraph
    collection: [read_fdx] raised or returned nothing, the object it
    returned has no paragraphs, or reading them raised. *)
Definition reading_fails (r : read_fdx_result) : Prop :=
  match r with
  | Raise _ => True
  | Value None => True
  | Value (Some screenplay) =>
      match paragraphs screenplay with
      | Some (Yields _) => False
      | Some (YieldsThenRaises _ _) => True
      | None => True
      end
  end.

(** "[parse_file] yields an empty result; no exception propagates to the
    caller." *)
Definition no_exception_propagates_on_failure : Prop :=
  forall (read_fdx : string -> read_fdx_result) (self0 : ScriptParser) (path : string),
    reading_fails (read_fdx path) ->
    completion (parse_file read_fdx self0 path) = Return [].

(** "No partial state is observable on failure." *)
Definition no_partial_state_on_failure : Prop :=
  forall (read_fdx : string -> read_fdx_result) (self0 : ScriptParser) (path : string),
    reading_fails (read_fdx path) ->
    self_after (parse_file read_fdx self0 path) = new_ScriptParser.

(** ** Vocabulary of the statements *)

(** The six paragraph kinds the loop tests for. *)
Definition recognized (kind : string) : Prop :=
  kind = "Scene Heading" \/ kind = "Character" \/ kind = "Parenthetical" \/
  kind = "Dialogue" \/ kind = "Action" \/ kind = "Transition".

(** Position [j] of the output holds the character cue [c] named [name],
    made from a Character paragraph, and every position strictly between
    [j] and [k] holds a parenthetical made from a Parenthetical paragraph:
    nothing between [j] and [k] cleared the current character. *)
Definition cue_reaches (out : list ScriptElement) (ps : list fdx_paragraph)
    (j : nat) (c : ScriptElement) (name : string) (k : nat) : Prop :=
  j < k /\
  nth_error out j = Some c /\
  type c = "character" /\ character_name c = Some name /\
  (exists pj, nth_error ps j = Some pj /\
              paragraph_type pj = "Character" /\ plain_text pj = name) /\
  forall i, j < i < k ->
    exists e p, nth_error out i = Some e /\ type e = "parenthetical" /\
                nth_error ps i = Some p /\ paragraph_type p = "Parenthetical".

(** The loop invariant: after the paragraphs [ps] the loop is in [st]. *)
Record loop_invariant (ps : list fdx_paragraph) (st : LoopState) : Prop := {
  inv_length : List.length (parsed_elements (self st)) = List.length ps;
  inv_line : line_number st = List.length ps;
  inv_lines : forall k e, nth_error (parsed_elements (self st)) k = Some e ->
                original_line_num e = Some (S k);
  inv_current : forall c, _current_character_element (self st) = Some c ->
                  exists j name,
                    cue_reaches (parsed_elements (self st)) ps j c name (List.length ps);
  inv_dialogue : forall k d, nth_error (parsed_elements (self st)) k = Some d ->
                   type d = "dialogue" ->
                   exists j c name,
                     cue_reaches (parsed_elements (self st)) ps j c name k /\
                     character_name d = Some name
}.

(** The four places where [parse_file] gives up and returns [[]]: the two
    early returns of the [try] block and the two handlers.  As kinds of
    failure they classify what happens before the loop is entered. *)
Inductive Failure :=
| ReturnedNone        (* [screenplay is None] *)
| MalformedStructure  (* [not hasattr(screenplay, 'paragraphs')] *)
| DocumentNotFound    (* [except FileNotFoundError] *)
| DocumentDecodeError (* [except Exception] *).

(** Which of them, if any, an outcome of [read_fdx] leads to before the
    loop is entered. *)
Definition failure_of (r : read_fdx_result) : option Failure :=
  match r with
  | Raise e =>
      match exc_class e with
      | FileNotFoundError => Some DocumentNotFound
      | Exception => Some DocumentDecodeError
      | BaseException => None
      end
  | Value None => Some ReturnedNone
  | Value (Some screenplay) =>
      match paragraphs screenplay with
      | None => Some MalformedStructure
      | Some _ => None
      end
  end.

(** The scenario paragraphs and elements of the specification. *)
Definition paragraph (kind txt : string) : fdx_paragraph :=
  {| paragraph_type := kind; plain_text := txt |}.

Definition SceneHeading (txt : string) (n : nat) : ScriptElement :=
  mkScriptElement "scene_heading" (Some txt) None None (Some n).
Definition Character (name : string) (n : nat) : ScriptElement :=
  mkScriptElement "character" None (Some name) None (Some n).
Definition Parenthetical (txt : string) (n : nat) : ScriptElement :=
  mkScriptElement "parenthetical" (Some txt) None None (Some n).
Definition Dialogue (name : option string) (txt : string) (n : nat) : ScriptElement :=
  mkScriptElement "dialogue" (Some txt) name (Some txt) (Some n).
Definition Action (txt : string) (n : nat) : ScriptElement :=
  mkScriptElement "action" (Some txt) None None (Some n).

(** A decoder that yields the given paragraphs for every path. *)
Definition decodes_to (ps : list fdx_paragraph) : string -> read_fdx_result :=
  fun _ => Value (Some {| dir_repr := "['paragraphs']"; paragraphs := Some (Yields ps) |}).

(** ** [ScriptElement.__repr__] *)

(** [a and b] where [b] is an attribute holding [None] or a string: the
    string when it is not empty, nothing otherwise. *)
Definition nonempty (o : option string) : option string :=
  match o with
  | Some (String c s) => Some (String c s)
  | _ => None
  end.

(** A Python [str] is a sequence of code points.  It is represented here
    by its UTF-8 encoding, one [ascii] per byte, which determines it.  [len]
    and slicing count code points, that is, the bytes that do not continue
    a multi-byte character (the bytes that are not of the form
    [10xxxxxx]). *)
Definition continuation_byte (c : ascii) : bool :=
  match c with
  | Ascii _ _ _ _ _ _ false true => true
  | _ => false
  end.

(** [len(s)] *)
Fixpoint len (s : string) : nat :=
  match s with
  | EmptyString => 0
  | String c s' => if continuation_byte c then len s' else S (len s')
  end.

(** [s[:n]]: the first [n] code points of [s], each with all its bytes. *)
Fixpoint slice_to (n : nat) (s : string) : string :=
  match s with
  | EmptyString => EmptyString
  | String c s' =>
      if continuation_byte c then String c (slice_to n s')
      else match n with
           | 0 => EmptyString
           | S n' => String c (slice_to n' s')
           end
  end.

(** The two fields of the f-strings that show a text:
    [{s[:50]}{'...' if len(s) > 50 else ''}]. *)
Definition preview (s : string) : string :=
  (slice_to 50 s ++ (if Nat.ltb 50 (len s) then "..." else EmptyString))%string.

(** [ScriptElement.__repr__] *)
Definition __repr__ (element : ScriptElement) : string :=
  match (if type element =? "character" then nonempty (character_name element)
         else None) with
  | Some name => ("<" ++ type element ++ ": " ++ name ++ ">")%string
  | None =>
      match (if type element =? "dialogue" then nonempty (dialogue_text element)
             else None) with
      | Some d => ("<" ++ type element ++ ": '" ++ preview d ++ "'>")%string
      | None =>
          match nonempty (text element) with
          | Some t => ("<" ++ type element ++ ": '" ++ preview t ++ "'>")%string
          | None => ("<" ++ type element ++ ">")%string
          end
      end
  end.

(** ** The script's entry point *)

(** The character [\n]. *)
Definition newline : string := String (Ascii.ascii_of_nat 10) EmptyString.

(** How a run of the [__main__] block ends: what it printed, one entry per
    call of [print], and the exception that escaped, if any. *)
Record MainRun := mkMainRun {
  main_stdout : list string;
  main_raised : option PyException
}.

Section Main.

(** [os.path.join] and [os.path.exists]. *)
Variable os_path_join : string -> string -> string.
Variable os_path_exists : string -> bool.

(** The external decoder. *)
Variable read_fdx : string -> read_fdx_result.

(** The text [{elapsed_time:.4f}] of the difference of the two clock
    readings. *)
Variable elapsed_time_4f : string.

(** The body of [if __name__ == "__main__":].  [print(element)] prints
    [str(element)], which for a class without [__str__] is its
    [__repr__]. *)
Definition main : MainRun :=
  let script_to_parse :=
    os_path_join "scripts" "The Purloined Millstone by E.A. Sprechmann.fdx" in
  let out := [("Attempting to parse FDX script from: " ++ script_to_parse)%string] in
  if negb (os_path_exists script_to_parse) then
    mkMainRun
      (out ++
       [("Error: Script file '" ++ script_to_parse ++ "' not found.")%string;
        "Please ensure your FDX script is saved in the 'scripts' folder with the correct filename.";
        "For this test, you'll need a proper Final Draft FDX file."])
      None
  else
    let parser := new_ScriptParser in
    let r := parse_file read_fdx parser script_to_parse in
    match completion r with
    | Propagate e => mkMainRun (out ++ printed r) (Some e)
    | Return parsed_elements =>
        mkMainRun
          (out ++ printed r ++
           [(newline ++ "--- Parsed Script Elements ---")%string] ++
           match parsed_elements with
           | [] => ["No elements parsed."]
           | _ :: _ => map __repr__ parsed_elements
           end ++
           [(newline ++ "Finished FDX script parsing test. Parsing took: "
             ++ elapsed_time_4f ++ " seconds.")%string])
          None
    end.

End Main.

(** ** Vocabulary of the further statements *)

(** The six values the [type] attribute of an emitted element takes. *)
Definition element_types : list string :=
  ["scene_heading"; "character"; "parenthetical"; "dialogue"; "action"; "transition"].

(** A Dialogue paragraph that was emitted as an action. *)
Definition downgraded (pe : fdx_paragraph * ScriptElement) : bool :=
  (paragraph_type (fst pe) =? "Dialogue")%string && (type (snd pe) =? "action")%string.

(** The line the loop prints when it downgrades a dialogue. *)
Definition dialogue_warning (n : nat) (txt : string) : string :=
  ("Warning: Dialogue found without preceding character at line "
   ++ str_of_int n ++ ": '" ++ txt ++ "'")%string.

(** The paragraph at position [j] is a character cue named [name] and the
    paragraphs strictly between [j] and [k] are all parentheticals. *)
Definition cue_before (ps : list fdx_paragraph) (j : nat) (name : string) (k : nat) : Prop :=
  j < k /\
  (exists pj, nth_error ps j = Some pj /\
              paragraph_type pj = "Character" /\ plain_text pj = name) /\
  forall i, j < i < k ->
    exists p, nth_error ps i = Some p /\ paragraph_type p = "Parenthetical".

(** The warnings a document gives rise to, in document order: one for each
    downgraded dialogue, naming its 1-based position and its text. *)
Definition warnings_of (ps : list fdx_paragraph) (out : list ScriptElement) : list string :=
  flat_map
    (fun npe : nat * (fdx_paragraph * ScriptElement) =>
       if downgraded (snd npe)
       then [dialogue_warning (fst npe) (plain_text (fst (snd npe)))]
       else [])
    (combine (seq 1 (List.length ps)) (combine ps out)).

(** The two arguments [main] joins into the path of the script. *)
Definition script_dir : string := "scripts".
Definition script_file : string := "The Purloined Millstone by E.A. Sprechmann.fdx".

(** How many elements have a given type, how many paragraphs a given
    kind. *)
Definition count_type (ty : string) (out : list ScriptElement) : nat :=
  List.length (filter (fun e => (type e =? ty)%string) out).

Definition count_kind (kind : string) (ps : list fdx_paragraph) : nat :=
  List.length (filter (fun p => (paragraph_type p =? kind)%string) ps).

(** ** Auxiliary lemmas *)

Ltac case_kind :=
  unfold loop_body;
  repeat match goal with
         | |- context [String.eqb ?a ?b] => destruct (String.eqb_spec a b)
         end.

(** One iteration appends exactly one element, which carries the new line
    number, and is of one of four sorts. *)
Lemma loop_body_cases (st : LoopState) (p : fdx_paragraph) :
  exists e,
    parsed_elements (self (loop_body st p)) = parsed_elements (self st) ++ [e] /\
    line_number (loop_body st p) = S (line_number st) /\
    original_line_num e = Some (S (line_number st)) /\
    ( (paragraph_type p = "Character" /\
       type e = "character" /\ character_name e = Some (plain_text p) /\
       _current_character_element (self (loop_body st p)) = Some e)
   \/ (paragraph_type p = "Parenthetical" /\ type e = "parenthetical" /\
       _current_character_element (self (loop_body st p)) =
       _current_character_element (self st))
   \/ (paragraph_type p = "Dialogue" /\ type e = "dialogue" /\
       (exists c, _current_character_element (self st) = Some c /\
                  character_name e = character_name c) /\
       _current_character_element (self (loop_body st p)) = None)
   \/ (paragraph_type p <> "Character" /\ paragraph_type p <> "Parenthetical" /\
       type e <> "character" /\ type e <> "parenthetical" /\ type e <> "dialogue" /\
       _current_character_element (self (loop_body st p)) = None) ).
Proof.
  case_kind;
    try (destruct (_current_character_element (self st)) as [c|] eqn:Hc);
    (eexists; split; [reflexivity|]; split; [reflexivity|]; split; [reflexivity|]);
    cbn [type character_name self _current_character_element append_and_set].
  all: try (left; repeat split; [assumption]).
  all: try (right; left; repeat split; [assumption]).
  all: try (right; right; left; repeat split; eauto; fail).
  all: right; right; right; repeat split; try congruence; try discriminate.
Qed.

(** A cue that reaches position [k] of the output still does so after one
    more element and one more paragraph were appended. *)
Lemma cue_reaches_app out ps j c name k e p :
  k <= List.length out -> List.length out = List.length ps ->
  cue_reaches out ps j c name k ->
  cue_reaches (out ++ [e]) (ps ++ [p]) j c name k.
Proof.
  intros Hk Hlen (Hjk & Hj & Hty & Hname & (pj & Hpj & Hkind & Htxt) & Hbetween).
  unfold cue_reaches. repeat split; auto.
  - rewrite nth_error_app1 by lia. exact Hj.
  - exists pj. rewrite nth_error_app1 by lia. auto.
  - intros i Hi. destruct (Hbetween i Hi) as (e' & p' & He' & Hte' & Hp' & Hkp').
    exists e', p'. rewrite !nth_error_app1 by lia. auto.
Qed.

(** A cue that reaches the end of the output reaches one position further
    when the element appended is a parenthetical. *)
Lemma cue_reaches_parenthetical out ps j c name e p :
  List.length out = List.length ps ->
  type e = "parenthetical" -> paragraph_type p = "Parenthetical" ->
  cue_reaches out ps j c name (List.length ps) ->
  cue_reaches (out ++ [e]) (ps ++ [p]) j c name (S (List.length ps)).
Proof.
  intros Hlen Hte Hkp (Hjk & Hj & Hty & Hname & (pj & Hpj & Hkind & Htxt) & Hbetween).
  unfold cue_reaches. repeat split; auto.
  - rewrite nth_error_app1 by lia. exact Hj.
  - exists pj. rewrite nth_error_app1 by lia. auto.
  - intros i Hi. destruct (Nat.eq_dec i (List.length ps)) as [->|Hne].
    + exists e, p. rewrite nth_error_app2 by lia. rewrite Hlen, Nat.sub_diag.
      rewrite nth_error_app2 by lia. rewrite Nat.sub_diag. auto.
    + destruct (Hbetween i ltac:(lia)) as (e' & p' & He' & Hte' & Hp' & Hkp').
      exists e', p'. rewrite !nth_error_app1 by lia. auto.
Qed.

(** The element at position [k] of [out ++ [e]] is either an element of
    [out] or [e] itself at position [length out]. *)
Lemma nth_error_snoc {A} (out : list A) (e d : A) k :
  nth_error (out ++ [e]) k = Some d ->
  (k < List.length out /\ nth_error out k = Some d) \/ (k = List.length out /\ d = e).
Proof.
  intros H. destruct (Nat.lt_ge_cases k (List.length out)) as [Hlt|Hge].
  - left. rewrite nth_error_app1 in H by exact Hlt. auto.
  - right. rewrite nth_error_app2 in H by exact Hge.
    destruct (k - List.length out) as [|m] eqn:Hm; cbn in H.
    + split; [lia | congruence].
    + destruct m; discriminate.
Qed.

(** The invariant holds on entry ... *)
Lemma loop_invariant_entry : loop_invariant [] loop_entry.
Proof.
  constructor; cbn; try reflexivity; try discriminate.
  - intros [|k] e H; discriminate.
  - intros [|k] d H; discriminate.
Qed.

(** ... and each iteration keeps it. *)
Lemma loop_invariant_step ps st p :
  loop_invariant ps st -> loop_invariant (ps ++ [p]) (loop_body st p).
Proof.
  intros [Hlen Hline Hlines Hcur Hdia].
  destruct (loop_body_cases st p) as (e & Hout & Hln & Heline & Hsort).
  assert (Hold : forall k d,
             nth_error (parsed_elements (self st)) k = Some d -> type d = "dialogue" ->
             exists j c name,
               cue_reaches (parsed_elements (self st) ++ [e]) (ps ++ [p]) j c name k /\
               character_name d = Some name).
  { intros k d Hk Hd. destruct (Hdia k d Hk Hd) as (j & c & name & Hcue & Hn).
    exists j, c, name. split; [|exact Hn].
    apply cue_reaches_app; auto.
    apply Nat.lt_le_incl, nth_error_Some. congruence. }
  constructor; rewrite ?Hout, ?length_app; cbn [List.length].
  - lia.
  - lia.
  - intros k d Hk. apply nth_error_snoc in Hk. destruct Hk as [[_ Hk]|[-> ->]].
    + eauto.
    + rewrite Heline. congruence.
  - intros c Hc. rewrite Nat.add_1_r.
    destruct Hsort as [(Hkind & Hty & Hname & Hnew)
                      |[(Hkind & Hty & Hsame)
                      |[(_ & _ & _ & Hnone)|(_ & _ & _ & _ & _ & Hnone)]]];
      try congruence.
    + assert (c = e) by congruence. subst c.
      exists (List.length ps), (plain_text p). unfold cue_reaches. repeat split; auto.
      * rewrite nth_error_app2 by lia. rewrite Hlen, Nat.sub_diag. reflexivity.
      * exists p. rewrite nth_error_app2 by lia. rewrite Nat.sub_diag. auto.
      * intros i Hi. lia.
    + rewrite Hsame in Hc. destruct (Hcur c Hc) as (j & name & Hcue).
      exists j, name. apply cue_reaches_parenthetical; auto.
  - intros k d Hk Hd. apply nth_error_snoc in Hk. destruct Hk as [[_ Hk]|[-> ->]].
    + eauto.
    + destruct Hsort as [(_ & Hty & _)
                        |[(_ & Hty & _)
                        |[(_ & _ & (c & Hc & Hname) & _)|(_ & _ & _ & _ & Hty & _)]]];
        try congruence.
      destruct (Hcur c Hc) as (j & name & Hcue).
      exists j, c, name. rewrite Hlen. split.
      * apply cue_reaches_app; auto. lia.
      * destruct Hcue as (_ & _ & _ & Hcn & _). congruence.
Qed.

(** [run_loop] peels off the last paragraph. *)
Lemma run_loop_snoc ps p : run_loop (ps ++ [p]) = loop_body (run_loop ps) p.
Proof. unfold run_loop. rewrite fold_left_app. reflexivity. Qed.

(** The invariant holds after any sequence of paragraphs. *)
Lemma run_loop_invariant ps : loop_invariant ps (run_loop ps).
Proof.
  induction ps as [|p ps IH] using rev_ind.
  - exact loop_invariant_entry.
  - rewrite run_loop_snoc. apply loop_invariant_step, IH.
Qed.

(** *** What one iteration does, branch by branch *)

Lemma loop_body_character st p :
  paragraph_type p = "Character" ->
  loop_body st p =
  let e := mkScriptElement "character" None (Some (plain_text p)) None
             (Some (S (line_number st))) in
  append_and_set st e (Some e) (S (line_number st)).
Proof. intros H. unfold loop_body. rewrite H. reflexivity. Qed.

Lemma loop_body_parenthetical st p :
  paragraph_type p = "Parenthetical" ->
  loop_body st p =
  append_and_set st
    (mkScriptElement "parenthetical" (Some (plain_text p)) None None
       (Some (S (line_number st))))
    (_current_character_element (self st)) (S (line_number st)).
Proof. intros H. unfold loop_body. rewrite H. reflexivity. Qed.

Lemma loop_body_dialogue_set st p c :
  paragraph_type p = "Dialogue" ->
  _current_character_element (self st) = Some c ->
  loop_body st p =
  append_and_set st
    (mkScriptElement "dialogue" (Some (plain_text p)) (character_name c)
       (Some (plain_text p)) (Some (S (line_number st))))
    None (S (line_number st)).
Proof. intros H Hc. unfold loop_body. rewrite H, Hc. reflexivity. Qed.

Lemma loop_body_dialogue_empty st p :
  paragraph_type p = "Dialogue" ->
  _current_character_element (self st) = None ->
  loop_body st p =
  append_and_set
    (print st ("Warning: Dialogue found without preceding character at line "
               ++ str_of_int (S (line_number st)) ++ ": '" ++ plain_text p ++ "'")%string)
    (mkScriptElement "action" (Some (plain_text p)) None None (Some (S (line_number st))))
    None (S (line_number st)).
Proof. intros H Hc. unfold loop_body. rewrite H, Hc. reflexivity. Qed.

Lemma loop_body_unrecognized st p :
  ~ recognized (paragraph_type p) ->
  loop_body st p =
  append_and_set st
    (mkScriptElement "action" (Some (plain_text p)) None None (Some (S (line_number st))))
    None (S (line_number st)).
Proof.
  intros H. case_kind; try reflexivity; exfalso; apply H; unfold recognized; tauto.
Qed.

(** Only the Character and the Parenthetical branches leave a current
    character behind. *)
Lemma loop_body_clears st p :
  paragraph_type p <> "Parenthetical" -> paragraph_type p <> "Character" ->
  _current_character_element (self (loop_body st p)) = None.
Proof.
  intros Hp Hc.
  destruct (loop_body_cases st p) as (e & _ & _ & _ & Hsort).
  destruct Hsort as [(Hk & _)|[(Hk & _)|[(_ & _ & _ & Hn)|(_ & _ & _ & _ & _ & Hn)]]];
    congruence.
Qed.

(** *** [parse_file] on a document that decodes *)

Lemma parse_file_decoded read_fdx self0 path sp ps :
  read_fdx path = Value (Some sp) -> paragraphs sp = Some (Yields ps) ->
  parse_file read_fdx self0 path =
  mkRun (self (run_loop ps)) (stdout (run_loop ps))
        (Return (parsed_elements (self (run_loop ps)))).
Proof. intros H Hp. unfold parse_file. rewrite H, Hp. reflexivity. Qed.

Lemma parse_file_returns read_fdx self0 path sp ps out :
  read_fdx path = Value (Some sp) -> paragraphs sp = Some (Yields ps) ->
  completion (parse_file read_fdx self0 path) = Return out ->
  out = parsed_elements (self (run_loop ps)).
Proof.
  intros H Hp Hc. rewrite (parse_file_decoded _ _ _ _ _ H Hp) in Hc.
  cbn in Hc. congruence.
Qed.

(** Elements made from unrecognized paragraphs sit at the paragraph's own
    position, as actions with the paragraph's text. *)
Lemma run_loop_unrecognized ps k p :
  nth_error ps k = Some p -> ~ recognized (paragraph_type p) ->
  exists e, nth_error (parsed_elements (self (run_loop ps))) k = Some e /\
            type e = "action" /\ text e = Some (plain_text p).
Proof.
  revert k p. induction ps as [|q ps IH] using rev_ind; intros k p Hk Hp.
  - destruct k; discriminate.
  - rewrite run_loop_snoc.
    destruct (loop_body_cases (run_loop ps) q) as (e & Hout & _).
    pose proof (inv_length _ _ (run_loop_invariant ps)) as Hlen.
    apply nth_error_snoc in Hk. destruct Hk as [[Hlt Hk]|[-> ->]].
    + destruct (IH k p Hk Hp) as (e' & He' & Hty & Htx).
      exists e'. rewrite Hout, nth_error_app1 by lia. auto.
    + rewrite (loop_body_unrecognized _ _ Hp). cbn.
      rewrite nth_error_app2 by lia. rewrite Hlen, Nat.sub_diag. cbn. eauto.
Qed.

(** ** The properties of the parser *)

(** C1.  Every dialogue element of the output carries the name of a
    character element that stands earlier in the output, and between that
    character element and the dialogue there are only parentheticals, made
    from Parenthetical paragraphs: no scene heading, action, transition or
    dialogue has cleared the current character in between. *)
Theorem dialogue_follows_its_character_cue :
  forall read_fdx self0 path sp ps out k d,
    read_fdx path = Value (Some sp) -> paragraphs sp = Some (Yields ps) ->
    completion (parse_file read_fdx self0 path) = Return out ->
    nth_error out k = Some d -> type d = "dialogue" ->
    exists j c name,
      cue_reaches out ps j c name k /\ character_name d = Some name.
Proof.
  intros read_fdx self0 path sp ps out k d H Hp Hc Hk Hd.
  rewrite (parse_file_returns _ _ _ _ _ _ H Hp Hc) in *.
  exact (inv_dialogue _ _ (run_loop_invariant ps) k d Hk Hd).
Qed.

Lemma dialogue_follows_its_character_cue_witness :
  let ps := [paragraph "Character" "BOB"; paragraph "Parenthetical" "(smiling)";
             paragraph "Dialogue" "Hi."] in
  let out := [Character "BOB" 1; Parenthetical "(smiling)" 2;
              Dialogue (Some "BOB") "Hi." 3] in
  exists j c name,
    cue_reaches out ps j c name 2 /\
    character_name (Dialogue (Some "BOB") "Hi." 3) = Some name.
Proof.
  intros ps out.
  apply (dialogue_follows_its_character_cue (decodes_to ps) new_ScriptParser
           "scripts/bob.fdx" {| dir_repr := "['paragraphs']"; paragraphs := Some (Yields ps) |}
           ps out 2 (Dialogue (Some "BOB") "Hi." 3));
    reflexivity.
Defined.

(** C2.  A Dialogue paragraph processed while the current character is set
    appends a dialogue element carrying that character's name and the
    paragraph's text, prints nothing, and clears the current character.
    The three-paragraph scene of the specification yields a scene heading,
    the character BOB and BOB's dialogue. *)
Theorem dialogue_with_current_character :
  (forall st p c,
      paragraph_type p = "Dialogue" ->
      _current_character_element (self st) = Some c ->
      loop_body st p =
      {| self := {| parsed_elements :=
                      parsed_elements (self st) ++
                      [Dialogue (character_name c) (plain_text p) (S (line_number st))];
                    _current_character_element := None |};
         line_number := S (line_number st);
         stdout := stdout st |}) /\
  (forall read_fdx self0 path sp,
      read_fdx path = Value (Some sp) ->
      paragraphs sp = Some (Yields [paragraph "Scene Heading" "INT. ROOM";
                                    paragraph "Character" "BOB";
                                    paragraph "Dialogue" "Hi."]) ->
      parse_file read_fdx self0 path =
      let out := [SceneHeading "INT. ROOM" 1; Character "BOB" 2;
                  Dialogue (Some "BOB") "Hi." 3] in
      mkRun {| parsed_elements := out; _current_character_element := None |}
            [] (Return out)).
Proof.
  split.
  - intros st p c Hk Hc. rewrite (loop_body_dialogue_set _ _ _ Hk Hc). reflexivity.
  - intros read_fdx self0 path sp H Hp.
    rewrite (parse_file_decoded _ _ _ _ _ H Hp). reflexivity.
Qed.

Lemma dialogue_with_current_character_witness :
  loop_body (run_loop [paragraph "Character" "BOB"]) (paragraph "Dialogue" "Hi.") =
  {| self := {| parsed_elements := [Character "BOB" 1; Dialogue (Some "BOB") "Hi." 2];
                _current_character_element := None |};
     line_number := 2;
     stdout := [] |}
  /\
  completion
    (parse_file (decodes_to [paragraph "Scene Heading" "INT. ROOM";
                             paragraph "Character" "BOB";
                             paragraph "Dialogue" "Hi."])
       new_ScriptParser "scripts/room.fdx") =
  Return [SceneHeading "INT. ROOM" 1; Character "BOB" 2; Dialogue (Some "BOB") "Hi." 3].
Proof.
  split.
  - apply (proj1 dialogue_with_current_character
             (run_loop [paragraph "Character" "BOB"]) (paragraph "Dialogue" "Hi.")
             (Character "BOB" 1)); reflexivity.
  - rewrite (proj2 dialogue_with_current_character _ new_ScriptParser "scripts/room.fdx"
               {| dir_repr := "['paragraphs']";
                  paragraphs := Some (Yields [paragraph "Scene Heading" "INT. ROOM";
                                              paragraph "Character" "BOB";
                                              paragraph "Dialogue" "Hi."]) |});
      reflexivity.
Defined.

(** C3.  A Dialogue paragraph processed while there is no current character
    does not stop the parse: it appends an action element with the
    paragraph's text, prints one warning line, and leaves the current
    character empty.  A lone Dialogue paragraph yields one action and one
    warning, and [parse_file] returns normally. *)
Theorem dialogue_without_character_falls_back :
  (forall st p,
      paragraph_type p = "Dialogue" ->
      _current_character_element (self st) = None ->
      loop_body st p =
      {| self := {| parsed_elements :=
                      parsed_elements (self st) ++
                      [Action (plain_text p) (S (line_number st))];
                    _current_character_element := None |};
         line_number := S (line_number st);
         stdout := stdout st ++
                   [("Warning: Dialogue found without preceding character at line "
                     ++ str_of_int (S (line_number st)) ++ ": '"
                     ++ plain_text p ++ "'")%string] |}) /\
  (forall read_fdx self0 path sp,
      read_fdx path = Value (Some sp) ->
      paragraphs sp = Some (Yields [paragraph "Dialogue" "Hi."]) ->
      parse_file read_fdx self0 path =
      mkRun {| parsed_elements := [Action "Hi." 1]; _current_character_element := None |}
            ["Warning: Dialogue found without preceding character at line 1: 'Hi.'"]
            (Return [Action "Hi." 1])).
Proof.
  split.
  - intros st p Hk Hc. rewrite (loop_body_dialogue_empty _ _ Hk Hc). reflexivity.
  - intros read_fdx self0 path sp H Hp.
    rewrite (parse_file_decoded _ _ _ _ _ H Hp). reflexivity.
Qed.

Lemma dialogue_without_character_falls_back_witness :
  loop_body loop_entry (paragraph "Dialogue" "Hi.") =
  {| self := {| parsed_elements := [Action "Hi." 1];
                _current_character_element := None |};
     line_number := 1;
     stdout := ["Warning: Dialogue found without preceding character at line 1: 'Hi.'"] |}
  /\
  parse_file (decodes_to [paragraph "Dialogue" "Hi."]) new_ScriptParser "scripts/hi.fdx" =
  mkRun {| parsed_elements := [Action "Hi." 1]; _current_character_element := None |}
        ["Warning: Dialogue found without preceding character at line 1: 'Hi.'"]
        (Return [Action "Hi." 1]).
Proof.
  split.
  - apply (proj1 dialogue_without_character_falls_back loop_entry
             (paragraph "Dialogue" "Hi.")); reflexivity.
  - apply (proj2 dialogue_without_character_falls_back _ new_ScriptParser "scripts/hi.fdx"
             {| dir_repr := "['paragraphs']";
                paragraphs := Some (Yields [paragraph "Dialogue" "Hi."]) |}); reflexivity.
Defined.

(** C4, the claim as worded fails, in both clauses of its last sentence.
    An exception that is not an [Exception] is caught by neither handler
    and reaches the caller.  And when reading the paragraphs raises after
    a Character paragraph, the empty list is returned while the character
    element stays on the parser object, as element and as current
    character. *)
Lemma failure_can_propagate_and_leave_state :
  ~ no_exception_propagates_on_failure /\ ~ no_partial_state_on_failure.
Proof.
  split.
  - intros H.
    specialize (H (fun _ => Raise (mkException BaseException "KeyboardInterrupt"))
                  new_ScriptParser "scripts/slow.fdx" I).
    cbn in H. discriminate H.
  - intros H.
    specialize (H (fun _ => Value (Some
                     {| dir_repr := "['paragraphs']";
                        paragraphs :=
                          Some (YieldsThenRaises [paragraph "Character" "BOB"]
                                  (mkException Exception "no attribute 'plain_text'")) |}))
                  new_ScriptParser "scripts/bob.fdx" I).
    cbn in H. discriminate H.
Qed.

(** C4, amended.  When [read_fdx] raises [FileNotFoundError] or another
    [Exception], returns [None], or returns an object without paragraphs,
    [parse_file] returns the empty list, lets no exception out, prints a
    diagnostic that belongs to that kind of failure alone, and leaves the
    parser object with no elements and no current character.  When an
    [Exception] is raised while the paragraphs are read, it likewise
    returns the empty list, after printing the handler's diagnostic.  An
    exception that is not an [Exception] is not caught: it reaches the
    caller, whether [read_fdx] or the loop raised it. *)
Theorem recovered_failures_are_reported :
  (forall read_fdx self0 path f,
      failure_of (read_fdx path) = Some f ->
      let r := parse_file read_fdx self0 path in
      completion r = Return [] /\
      self_after r = new_ScriptParser /\
      match f with
      | DocumentNotFound =>
          printed r = [("Error: Script file not found at " ++ path)%string]
      | DocumentDecodeError =>
          exists e, read_fdx path = Raise e /\
            printed r =
            [("An error occurred during FDX script parsing: " ++ exc_str e)%string]
      | MalformedStructure =>
          exists sp, read_fdx path = Value (Some sp) /\
            printed r =
            ["DEBUG: WARNING: 'screenplay' object DOES NOT have 'paragraphs' attribute.";
             ("DEBUG: Available attributes on 'screenplay' object: "
              ++ dir_repr sp)%string]
      | ReturnedNone =>
          printed r = ["Error: read_fdx returned None. Cannot proceed with parsing."]
      end) /\
  (forall read_fdx self0 path sp ps e,
      read_fdx path = Value (Some sp) ->
      paragraphs sp = Some (YieldsThenRaises ps e) ->
      exc_class e <> BaseException ->
      let r := parse_file read_fdx self0 path in
      completion r = Return [] /\
      printed r =
      stdout (run_loop ps) ++
      [match exc_class e with
       | FileNotFoundError => ("Error: Script file not found at " ++ path)%string
       | _ => ("An error occurred during FDX script parsing: " ++ exc_str e)%string
       end]) /\
  (forall read_fdx self0 path e,
      exc_class e = BaseException ->
      (read_fdx path = Raise e \/
       exists sp ps, read_fdx path = Value (Some sp) /\
                     paragraphs sp = Some (YieldsThenRaises ps e)) ->
      completion (parse_file read_fdx self0 path) = Propagate e) /\
  (forall read_fdx1 read_fdx2 self1 self2 path1 path2 f1 f2,
      failure_of (read_fdx1 path1) = Some f1 ->
      failure_of (read_fdx2 path2) = Some f2 ->
      printed (parse_file read_fdx1 self1 path1) =
      printed (parse_file read_fdx2 self2 path2) ->
      f1 = f2).
Proof.
  split; [|split; [|split]].
  - intros read_fdx self0 path f Hf r. subst r. unfold parse_file.
    unfold failure_of in Hf.
    destruct (read_fdx path) as [e|[sp|]] eqn:Hr.
    + destruct (exc_class e); inversion Hf; subst f; cbn; eauto.
    + destruct (paragraphs sp) as [[ps|ps e]|]; inversion Hf; subst f; cbn; eauto.
    + inversion Hf; subst f; cbn; auto.
  - intros read_fdx self0 path sp ps e Hr Hp Hcl r. subst r. unfold parse_file.
    rewrite Hr, Hp. destruct (exc_class e); cbn; auto. congruence.
  - intros read_fdx self0 path e Hcl [Hr|(sp & ps & Hr & Hp)]; unfold parse_file.
    + rewrite Hr, Hcl. reflexivity.
    + rewrite Hr, Hp, Hcl. reflexivity.
  - intros read_fdx1 read_fdx2 self1 self2 path1 path2 f1 f2 H1 H2.
    unfold parse_file. unfold failure_of in H1, H2.
    destruct (read_fdx1 path1) as [e1|[sp1|]];
      [destruct (exc_class e1)|destruct (paragraphs sp1) as [[ps1|ps1 x1]|]|];
      inversion H1; subst f1;
      (destruct (read_fdx2 path2) as [e2|[sp2|]];
       [destruct (exc_class e2)|destruct (paragraphs sp2) as [[ps2|ps2 x2]|]|]);
      inversion H2; subst f2;
      cbn; intros Heq; try reflexivity; discriminate Heq.
Qed.

Lemma recovered_failures_are_reported_witness :
  (let r := parse_file (fun _ => Raise (mkException FileNotFoundError "No such file"))
              {| parsed_elements := [Action "left over" 1];
                 _current_character_element := Some (Character "BOB" 7) |}
              "scripts/missing.fdx" in
   completion r = Return [] /\
   self_after r = new_ScriptParser /\
   printed r = ["Error: Script file not found at scripts/missing.fdx"])
  /\
  (let r := parse_file (fun _ => Value (Some (mkFinalDraft "['title']" None)))
              new_ScriptParser "scripts/odd.fdx" in
   completion r = Return [] /\
   self_after r = new_ScriptParser /\
   exists sp, (fun _ : string => Value (Some (mkFinalDraft "['title']" None)))
                "scripts/odd.fdx" = Value (Some sp) /\
     printed r =
     ["DEBUG: WARNING: 'screenplay' object DOES NOT have 'paragraphs' attribute.";
      ("DEBUG: Available attributes on 'screenplay' object: " ++ dir_repr sp)%string])
  /\
  (let r := parse_file
              (fun _ => Value (Some (mkFinalDraft "['paragraphs']"
                 (Some (YieldsThenRaises [paragraph "Dialogue" "Hi."]
                          (mkException Exception "no attribute 'plain_text'"))))))
              new_ScriptParser "scripts/hi.fdx" in
   completion r = Return [] /\
   printed r =
   ["Warning: Dialogue found without preceding character at line 1: 'Hi.'";
    "An error occurred during FDX script parsing: no attribute 'plain_text'"])
  /\
  completion (parse_file (fun _ => Raise (mkException BaseException "KeyboardInterrupt"))
                new_ScriptParser "scripts/slow.fdx") =
  Propagate (mkException BaseException "KeyboardInterrupt").
Proof.
  destruct recovered_failures_are_reported as (Hbefore & Hloop & Hbase & _).
  split; [|split; [|split]].
  - apply (Hbefore (fun _ => Raise (mkException FileNotFoundError "No such file"))
             _ "scripts/missing.fdx" DocumentNotFound). reflexivity.
  - apply (Hbefore (fun _ => Value (Some (mkFinalDraft "['title']" None)))
             _ "scripts/odd.fdx" MalformedStructure). reflexivity.
  - apply (Hloop _ new_ScriptParser "scripts/hi.fdx"
             (mkFinalDraft "['paragraphs']"
                (Some (YieldsThenRaises [paragraph "Dialogue" "Hi."]
                         (mkException Exception "no attribute 'plain_text'"))))
             [paragraph "Dialogue" "Hi."]
             (mkException Exception "no attribute 'plain_text'"));
      [reflexivity|reflexivity|cbn; discriminate].
  - apply (Hbase _ new_ScriptParser "scripts/slow.fdx"
             (mkException BaseException "KeyboardInterrupt")); [reflexivity|].
    left. reflexivity.
Defined.

(** C5.  The list [parse_file] returns for a decoded document is never
    longer than the paragraph list, and a paragraph of an unrecognized kind
    does not add an element of its own kind: at the paragraph's position
    the output holds an action with the paragraph's text. *)
Theorem output_no_longer_than_input :
  forall read_fdx self0 path sp ps out,
    read_fdx path = Value (Some sp) -> paragraphs sp = Some (Yields ps) ->
    completion (parse_file read_fdx self0 path) = Return out ->
    List.length out <= List.length ps /\
    forall k p, nth_error ps k = Some p -> ~ recognized (paragraph_type p) ->
      exists e, nth_error out k = Some e /\
                type e = "action" /\ text e = Some (plain_text p).
Proof.
  intros read_fdx self0 path sp ps out H Hp Hc.
  rewrite (parse_file_returns _ _ _ _ _ _ H Hp Hc). split.
  - rewrite (inv_length _ _ (run_loop_invariant ps)). apply Nat.le_refl.
  - apply run_loop_unrecognized.
Qed.

Lemma output_no_longer_than_input_witness :
  let ps := [paragraph "Scene Heading" "INT. ROOM"; paragraph "Shot" "CLOSE ON BOB"] in
  let out := [SceneHeading "INT. ROOM" 1; Action "CLOSE ON BOB" 2] in
  List.length out <= List.length ps /\
  forall k p, nth_error ps k = Some p -> ~ recognized (paragraph_type p) ->
    exists e, nth_error out k = Some e /\
              type e = "action" /\ text e = Some (plain_text p).
Proof.
  intros ps out.
  apply (output_no_longer_than_input (decodes_to ps) new_ScriptParser "scripts/shot.fdx"
           {| dir_repr := "['paragraphs']"; paragraphs := Some (Yields ps) |} ps out);
    reflexivity.
Defined.

(** C6.  A Parenthetical paragraph appends a parenthetical element with the
    paragraph's text, prints nothing and leaves the current character as it
    was; so the dialogue after a character cue and a parenthetical is still
    attributed to that character. *)
Theorem parenthetical_keeps_current_character :
  (forall st p,
      paragraph_type p = "Parenthetical" ->
      loop_body st p =
      {| self := {| parsed_elements :=
                      parsed_elements (self st) ++
                      [Parenthetical (plain_text p) (S (line_number st))];
                    _current_character_element :=
                      _current_character_element (self st) |};
         line_number := S (line_number st);
         stdout := stdout st |}) /\
  (forall read_fdx self0 path sp,
      read_fdx path = Value (Some sp) ->
      paragraphs sp = Some (Yields [paragraph "Character" "BOB";
                                    paragraph "Parenthetical" "(smiling)";
                                    paragraph "Dialogue" "Hi."]) ->
      parse_file read_fdx self0 path =
      let out := [Character "BOB" 1; Parenthetical "(smiling)" 2;
                  Dialogue (Some "BOB") "Hi." 3] in
      mkRun {| parsed_elements := out; _current_character_element := None |}
            [] (Return out)).
Proof.
  split.
  - intros st p Hk. rewrite (loop_body_parenthetical _ _ Hk). reflexivity.
  - intros read_fdx self0 path sp H Hp.
    rewrite (parse_file_decoded _ _ _ _ _ H Hp). reflexivity.
Qed.

Lemma parenthetical_keeps_current_character_witness :
  _current_character_element
    (self (loop_body (run_loop [paragraph "Character" "BOB"])
             (paragraph "Parenthetical" "(smiling)"))) =
  Some (Character "BOB" 1)
  /\
  completion
    (parse_file (decodes_to [paragraph "Character" "BOB";
                             paragraph "Parenthetical" "(smiling)";
                             paragraph "Dialogue" "Hi."])
       new_ScriptParser "scripts/smile.fdx") =
  Return [Character "BOB" 1; Parenthetical "(smiling)" 2; Dialogue (Some "BOB") "Hi." 3].
Proof.
  split.
  - rewrite (proj1 parenthetical_keeps_current_character
               (run_loop [paragraph "Character" "BOB"])
               (paragraph "Parenthetical" "(smiling)")); reflexivity.
  - rewrite (proj2 parenthetical_keeps_current_character _ new_ScriptParser
               "scripts/smile.fdx"
               {| dir_repr := "['paragraphs']";
                  paragraphs := Some (Yields [paragraph "Character" "BOB";
                                              paragraph "Parenthetical" "(smiling)";
                                              paragraph "Dialogue" "Hi."]) |});
      reflexivity.
Defined.

(** C7, the claim as worded fails.  A Character paragraph is not a
    Parenthetical one, yet after it the state holds the new character
    element instead of being empty. *)
Lemma character_paragraph_sets_the_state :
  ~ state_empty_after_every_non_parenthetical.
Proof.
  intros H.
  assert (Hkind : paragraph_type (paragraph "Character" "BOB") <> "Parenthetical")
    by (cbn; discriminate).
  specialize (H loop_entry (paragraph "Character" "BOB") Hkind).
  cbn in H. discriminate H.
Qed.

(** C7, amended.  The parser state is one optional reference to the most
    recent character element.  Each parse starts with it empty, whatever
    the parser object held before.  A Character paragraph sets it to the
    character element just appended, a Parenthetical paragraph leaves it
    unchanged, and every paragraph of any other kind leaves it empty.  When
    it is set, it is a character element of the output with nothing but
    parentheticals after it. *)
Theorem current_character_lifecycle :
  (forall read_fdx self0 path,
      parse_file read_fdx self0 path = parse_file read_fdx new_ScriptParser path) /\
  _current_character_element (self (run_loop [])) = None /\
  (forall st p,
      paragraph_type p = "Character" ->
      let e := Character (plain_text p) (S (line_number st)) in
      parsed_elements (self (loop_body st p)) = parsed_elements (self st) ++ [e] /\
      _current_character_element (self (loop_body st p)) = Some e) /\
  (forall st p,
      paragraph_type p = "Parenthetical" ->
      _current_character_element (self (loop_body st p)) =
      _current_character_element (self st)) /\
  (forall st p,
      paragraph_type p <> "Parenthetical" -> paragraph_type p <> "Character" ->
      _current_character_element (self (loop_body st p)) = None) /\
  (forall ps c,
      _current_character_element (self (run_loop ps)) = Some c ->
      exists j name,
        cue_reaches (parsed_elements (self (run_loop ps))) ps j c name (List.length ps)).
Proof.
  split; [|split; [|split; [|split; [|split]]]].
  - reflexivity.
  - reflexivity.
  - intros st p Hk e. rewrite (loop_body_character _ _ Hk). split; reflexivity.
  - intros st p Hk. rewrite (loop_body_parenthetical _ _ Hk). reflexivity.
  - intros st p Hp Hc. apply loop_body_clears; assumption.
  - intros ps c Hc. exact (inv_current _ _ (run_loop_invariant ps) c Hc).
Qed.

Lemma current_character_lifecycle_witness :
  (let st := run_loop [paragraph "Scene Heading" "INT. ROOM"] in
   let e := Character "BOB" 2 in
   parsed_elements (self (loop_body st (paragraph "Character" "BOB"))) =
   [SceneHeading "INT. ROOM" 1; e] /\
   _current_character_element (self (loop_body st (paragraph "Character" "BOB"))) =
   Some e)
  /\
  _current_character_element
    (self (loop_body (run_loop [paragraph "Character" "BOB"])
             (paragraph "Parenthetical" "(smiling)"))) =
  Some (Character "BOB" 1)
  /\
  _current_character_element
    (self (loop_body (run_loop [paragraph "Character" "BOB"])
             (paragraph "Transition" "CUT TO:"))) = None
  /\
  exists j name,
    cue_reaches [Character "BOB" 1; Parenthetical "(smiling)" 2]
      [paragraph "Character" "BOB"; paragraph "Parenthetical" "(smiling)"]
      j (Character "BOB" 1) name 2.
Proof.
  destruct current_character_lifecycle as (_ & _ & Hchar & Hparen & Hclear & Hrecent).
  split; [|split; [|split]].
  - apply (Hchar (run_loop [paragraph "Scene Heading" "INT. ROOM"])
             (paragraph "Character" "BOB")). reflexivity.
  - rewrite (Hparen (run_loop [paragraph "Character" "BOB"])
               (paragraph "Parenthetical" "(smiling)")); reflexivity.
  - apply (Hclear (run_loop [paragraph "Character" "BOB"])
             (paragraph "Transition" "CUT TO:")); cbn; discriminate.
  - apply (Hrecent [paragraph "Character" "BOB"; paragraph "Parenthetical" "(smiling)"]
             (Character "BOB" 1)). reflexivity.
Defined.

(** C8.  A paragraph whose kind is none of the six recognized ones appends
    an action element that keeps the paragraph's text, prints nothing and
    leaves the current character empty; a lone paragraph of kind Shot
    yields one action with its text. *)
Theorem unrecognized_kind_becomes_action :
  (forall st p,
      ~ recognized (paragraph_type p) ->
      loop_body st p =
      {| self := {| parsed_elements :=
                      parsed_elements (self st) ++
                      [Action (plain_text p) (S (line_number st))];
                    _current_character_element := None |};
         line_number := S (line_number st);
         stdout := stdout st |}) /\
  (forall read_fdx self0 path sp txt,
      read_fdx path = Value (Some sp) ->
      paragraphs sp = Some (Yields [paragraph "Shot" txt]) ->
      parse_file read_fdx self0 path =
      mkRun {| parsed_elements := [Action txt 1]; _current_character_element := None |}
            [] (Return [Action txt 1])).
Proof.
  split.
  - intros st p Hk. rewrite (loop_body_unrecognized _ _ Hk). reflexivity.
  - intros read_fdx self0 path sp txt H Hp.
    rewrite (parse_file_decoded _ _ _ _ _ H Hp). reflexivity.
Qed.

Lemma unrecognized_kind_becomes_action_witness :
  loop_body (run_loop [paragraph "Character" "BOB"]) (paragraph "Shot" "CLOSE ON BOB") =
  {| self := {| parsed_elements := [Character "BOB" 1; Action "CLOSE ON BOB" 2];
                _current_character_element := None |};
     line_number := 2;
     stdout := [] |}
  /\
  completion (parse_file (decodes_to [paragraph "Shot" "CLOSE ON BOB"])
                new_ScriptParser "scripts/shot.fdx") =
  Return [Action "CLOSE ON BOB" 1].
Proof.
  split.
  - apply (proj1 unrecognized_kind_becomes_action
             (run_loop [paragraph "Character" "BOB"])
             (paragraph "Shot" "CLOSE ON BOB")).
    unfold recognized. cbn.
    intros [H|[H|[H|[H|[H|H]]]]]; discriminate H.
  - rewrite (proj2 unrecognized_kind_becomes_action _ new_ScriptParser
               "scripts/shot.fdx"
               {| dir_repr := "['paragraphs']";
                  paragraphs := Some (Yields [paragraph "Shot" "CLOSE ON BOB"]) |}
               "CLOSE ON BOB"); reflexivity.
Defined.

(** C9.  For a decoded document the loop appends exactly one element per
    paragraph: the returned list is as long as the paragraph list. *)
Theorem one_element_per_paragraph :
  forall read_fdx self0 path sp ps out,
    read_fdx path = Value (Some sp) -> paragraphs sp = Some (Yields ps) ->
    completion (parse_file read_fdx self0 path) = Return out ->
    List.length out = List.length ps.
Proof.
  intros read_fdx self0 path sp ps out H Hp Hc.
  rewrite (parse_file_returns _ _ _ _ _ _ H Hp Hc).
  exact (inv_length _ _ (run_loop_invariant ps)).
Qed.

Lemma one_element_per_paragraph_witness :
  List.length [Action "Hi." 1; Action "CLOSE ON BOB" 2; Character "BOB" 3] =
  List.length [paragraph "Dialogue" "Hi."; paragraph "Shot" "CLOSE ON BOB";
               paragraph "Character" "BOB"].
Proof.
  apply (one_element_per_paragraph
           (decodes_to [paragraph "Dialogue" "Hi."; paragraph "Shot" "CLOSE ON BOB";
                        paragraph "Character" "BOB"])
           new_ScriptParser "scripts/three.fdx"
           {| dir_repr := "['paragraphs']";
              paragraphs := Some (Yields [paragraph "Dialogue" "Hi.";
                                          paragraph "Shot" "CLOSE ON BOB";
                                          paragraph "Character" "BOB"]) |});
    reflexivity.
Defined.

(** C10.  For a decoded document the element at position [k] of the
    returned list (counting from 0) has [original_line_num = k + 1]: the
    1-based position of its paragraph in the decoded sequence. *)
Theorem line_number_is_paragraph_position :
  forall read_fdx self0 path sp ps out k e,
    read_fdx path = Value (Some sp) -> paragraphs sp = Some (Yields ps) ->
    completion (parse_file read_fdx self0 path) = Return out ->
    nth_error out k = Some e ->
    original_line_num e = Some (S k).
Proof.
  intros read_fdx self0 path sp ps out k e H Hp Hc Hk.
  rewrite (parse_file_returns _ _ _ _ _ _ H Hp Hc) in Hk.
  exact (inv_lines _ _ (run_loop_invariant ps) k e Hk).
Qed.

Lemma line_number_is_paragraph_position_witness :
  original_line_num (Dialogue (Some "BOB") "Hi." 3) = Some 3.
Proof.
  apply (line_number_is_paragraph_position
           (decodes_to [paragraph "Scene Heading" "INT. ROOM";
                        paragraph "Character" "BOB";
                        paragraph "Dialogue" "Hi."])
           new_ScriptParser "scripts/room.fdx"
           {| dir_repr := "['paragraphs']";
              paragraphs := Some (Yields [paragraph "Scene Heading" "INT. ROOM";
                                          paragraph "Character" "BOB";
                                          paragraph "Dialogue" "Hi."]) |}
           [paragraph "Scene Heading" "INT. ROOM"; paragraph "Character" "BOB";
            paragraph "Dialogue" "Hi."]
           [SceneHeading "INT. ROOM" 1; Character "BOB" 2; Dialogue (Some "BOB") "Hi." 3]
           2);
    reflexivity.
Defined.

(** ** Further properties of the loop *)

(** *** The remaining branches *)

Lemma loop_body_scene_heading st p :
  paragraph_type p = "Scene Heading" ->
  loop_body st p =
  append_and_set st (SceneHeading (plain_text p) (S (line_number st)))
    None (S (line_number st)).
Proof. intros H. unfold loop_body. rewrite H. reflexivity. Qed.

Lemma loop_body_action st p :
  paragraph_type p = "Action" ->
  loop_body st p =
  append_and_set st (Action (plain_text p) (S (line_number st)))
    None (S (line_number st)).
Proof. intros H. unfold loop_body. rewrite H. reflexivity. Qed.

Lemma loop_body_transition st p :
  paragraph_type p = "Transition" ->
  loop_body st p =
  append_and_set st
    (mkScriptElement "transition" (Some (plain_text p)) None None
       (Some (S (line_number st))))
    None (S (line_number st)).
Proof. intros H. unfold loop_body. rewrite H. reflexivity. Qed.

(** One iteration, in full: the element appended is one of the six
    constructions, and a line is printed exactly when a dialogue was
    downgraded. *)
Lemma loop_body_step st p :
  exists e,
    parsed_elements (self (loop_body st p)) = parsed_elements (self st) ++ [e] /\
    stdout (loop_body st p) =
    stdout st ++
    (if downgraded (p, e)
     then [dialogue_warning (S (line_number st)) (plain_text p)] else []) /\
    original_line_num e = Some (S (line_number st)) /\
    ( (type e = "character" /\ character_name e = Some (plain_text p) /\
       text e = None /\ dialogue_text e = None)
   \/ (type e = "dialogue" /\ text e = Some (plain_text p) /\
       dialogue_text e = Some (plain_text p) /\
       exists c, _current_character_element (self st) = Some c /\
                 character_name e = character_name c)
   \/ (In (type e) ["scene_heading"; "parenthetical"; "action"; "transition"] /\
       text e = Some (plain_text p) /\
       character_name e = None /\ dialogue_text e = None) ).
Proof.
  unfold downgraded, dialogue_warning. cbn [fst snd].
  case_kind;
    try (destruct (_current_character_element (self st)) as [c|] eqn:Hc);
    (eexists; split; [reflexivity|]);
    cbn [type character_name text dialogue_text original_line_num
         self stdout _current_character_element append_and_set print];
    repeat match goal with
           | H : paragraph_type p = _ |- _ => rewrite H
           | H : paragraph_type p <> _ |- _ =>
               apply String.eqb_neq in H; try rewrite H
           end;
    cbn [String.eqb Ascii.eqb Bool.eqb andb];
    rewrite ?app_nil_r;
    (split; [reflexivity|]); (split; [reflexivity|]).
  all: try (left; repeat split; reflexivity).
  all: try (right; left; repeat split; eauto; fail).
  all: right; right; cbn; repeat split; tauto.
Qed.

(** *** Position by position *)

Lemma firstn_succ_nth {A} (l : list A) k a :
  nth_error l k = Some a -> firstn (S k) l = firstn k l ++ [a].
Proof.
  revert k. induction l as [|b l IH]; intros [|k] H; try discriminate.
  - cbn in H. injection H as ->. reflexivity.
  - cbn in H. simpl. f_equal. apply IH. exact H.
Qed.

Lemma firstn_snoc_le {A} (l : list A) a k :
  k <= List.length l -> firstn k (l ++ [a]) = firstn k l.
Proof.
  intros H. rewrite firstn_app.
  replace (k - List.length l) with 0 by lia. cbn. apply app_nil_r.
Qed.

Lemma run_loop_prefix_line ps k :
  k <= List.length ps -> line_number (run_loop (firstn k ps)) = k.
Proof.
  intros H. rewrite (inv_line _ _ (run_loop_invariant (firstn k ps))).
  rewrite length_firstn. lia.
Qed.

(** The element at position [k] is the one the loop body appends when it
    meets paragraph [k] after the first [k] paragraphs. *)
Lemma run_loop_position ps k p :
  nth_error ps k = Some p ->
  exists e,
    nth_error (parsed_elements (self (run_loop ps))) k = Some e /\
    parsed_elements (self (loop_body (run_loop (firstn k ps)) p)) =
    parsed_elements (self (run_loop (firstn k ps))) ++ [e].
Proof.
  revert k p. induction ps as [|q ps IH] using rev_ind; intros k p Hk.
  - destruct k; discriminate.
  - pose proof (inv_length _ _ (run_loop_invariant ps)) as Hlen.
    destruct (loop_body_cases (run_loop ps) q) as (e' & Hout & _).
    apply nth_error_snoc in Hk. destruct Hk as [[Hlt Hk]|[-> ->]].
    + destruct (IH k p Hk) as (e & He & Hstep).
      exists e. rewrite firstn_snoc_le by lia. split; [|exact Hstep].
      rewrite run_loop_snoc, Hout, nth_error_app1 by lia. exact He.
    + exists e'. rewrite firstn_snoc_le by lia. rewrite firstn_all.
      split; [|exact Hout].
      rewrite run_loop_snoc, Hout, nth_error_app2 by lia.
      rewrite Hlen, Nat.sub_diag. reflexivity.
Qed.

Lemma run_loop_emits ps k p e :
  nth_error ps k = Some p ->
  parsed_elements (self (loop_body (run_loop (firstn k ps)) p)) =
  parsed_elements (self (run_loop (firstn k ps))) ++ [e] ->
  nth_error (parsed_elements (self (run_loop ps))) k = Some e.
Proof.
  intros Hk He. destruct (run_loop_position ps k p Hk) as (e' & Hk' & He').
  rewrite He in He'. apply app_inv_head in He'. congruence.
Qed.

(** The current character after the first [k] paragraphs, when a cue
    reaches position [k]. *)
Lemma current_after_cue ps j name k :
  cue_before ps j name k -> k <= List.length ps ->
  _current_character_element (self (run_loop (firstn k ps))) =
  Some (Character name (S j)).
Proof.
  induction k as [|k IH]; intros (Hjk & (pj & Hpj & Hkind & Hname) & Hbetween) Hle.
  - lia.
  - destruct (Nat.eq_dec j k) as [->|Hne].
    + rewrite (firstn_succ_nth _ _ _ Hpj), run_loop_snoc.
      rewrite (loop_body_character _ _ Hkind). cbn.
      rewrite run_loop_prefix_line by lia. rewrite Hname. reflexivity.
    + destruct (Hbetween k ltac:(lia)) as (p & Hp & Hpk).
      rewrite (firstn_succ_nth _ _ _ Hp), run_loop_snoc.
      rewrite (loop_body_parenthetical _ _ Hpk). cbn.
      apply IH; [|lia].
      split; [lia|]. split; [eauto|]. intros i Hi. apply Hbetween. lia.
Qed.

(** A cue in the output is a cue in the paragraphs. *)
Lemma cue_reaches_before out ps j c name k :
  cue_reaches out ps j c name k -> cue_before ps j name k.
Proof.
  intros (Hjk & _ & _ & _ & Hpj & Hbetween). split; [exact Hjk|]. split; [exact Hpj|].
  intros i Hi. destruct (Hbetween i Hi) as (e & p & _ & _ & Hp & Hk). eauto.
Qed.

(** Without a cue reaching position [k], no current character is set after
    the first [k] paragraphs. *)
Lemma current_without_cue ps k :
  k <= List.length ps ->
  (forall j name, ~ cue_before ps j name k) ->
  _current_character_element (self (run_loop (firstn k ps))) = None.
Proof.
  intros Hle Hno.
  destruct (_current_character_element (self (run_loop (firstn k ps)))) as [c|] eqn:Hc;
    [|reflexivity].
  destruct (inv_current _ _ (run_loop_invariant (firstn k ps)) c Hc) as (j & name & Hcue).
  apply cue_reaches_before in Hcue.
  rewrite length_firstn, Nat.min_l in Hcue by exact Hle.
  exfalso. apply (Hno j name).
  destruct Hcue as (Hjk & (pj & Hpj & Hkind & Hname) & Hbetween).
  split; [exact Hjk|]. split.
  - exists pj. rewrite nth_error_firstn in Hpj.
    destruct (Nat.ltb_spec j k); [auto|lia].
  - intros i Hi. destruct (Hbetween i Hi) as (p & Hp & Hpk). exists p.
    rewrite nth_error_firstn in Hp. destruct (Nat.ltb_spec i k); [auto|lia].
Qed.

Lemma nth_error_lt {A} (l : list A) k a : nth_error l k = Some a -> k < List.length l.
Proof. intros H. apply nth_error_Some. congruence. Qed.

Lemma dialogue_at_position_set ps k p c :
  nth_error ps k = Some p -> paragraph_type p = "Dialogue" ->
  _current_character_element (self (run_loop (firstn k ps))) = Some c ->
  nth_error (parsed_elements (self (run_loop ps))) k =
  Some (Dialogue (character_name c) (plain_text p) (S k)).
Proof.
  intros Hk Hkind Hc. apply (run_loop_emits ps k p _ Hk).
  rewrite (loop_body_dialogue_set _ _ _ Hkind Hc). cbn.
  rewrite run_loop_prefix_line by (apply Nat.lt_le_incl, (nth_error_lt _ _ _ Hk)).
  reflexivity.
Qed.

Lemma dialogue_at_position_empty ps k p :
  nth_error ps k = Some p -> paragraph_type p = "Dialogue" ->
  _current_character_element (self (run_loop (firstn k ps))) = None ->
  nth_error (parsed_elements (self (run_loop ps))) k =
  Some (Action (plain_text p) (S k)).
Proof.
  intros Hk Hkind Hc. apply (run_loop_emits ps k p _ Hk).
  rewrite (loop_body_dialogue_empty _ _ Hkind Hc). cbn.
  rewrite run_loop_prefix_line by (apply Nat.lt_le_incl, (nth_error_lt _ _ _ Hk)).
  reflexivity.
Qed.

(** The loop only ever appends, to the elements and to the output. *)
Lemma fold_loop_body_extends qs st :
  exists els lines,
    parsed_elements (self (fold_left loop_body qs st)) = parsed_elements (self st) ++ els /\
    List.length els = List.length qs /\
    stdout (fold_left loop_body qs st) = stdout st ++ lines.
Proof.
  revert st. induction qs as [|q qs IH]; intros st.
  - exists [], []. cbn. rewrite !app_nil_r. auto.
  - cbn [fold_left]. destruct (IH (loop_body st q)) as (els & lines & Hels & Hlen & Hout).
    destruct (loop_body_step st q) as (e & He & Hline & _).
    exists (e :: els), ((if downgraded (q, e)
                        then [dialogue_warning (S (line_number st)) (plain_text q)]
                        else []) ++ lines).
    rewrite Hels, Hout, He, Hline, <- !app_assoc. cbn. auto.
Qed.

(** X1.  Parsing a longer document extends the result of parsing a shorter
    one: for a document that starts with the paragraphs of another, the
    elements returned for the shorter document are the first elements
    returned for the longer one, and the lines printed for the shorter one
    are the first lines printed for the longer one. *)
Theorem longer_document_extends_output :
  forall read_fdx self1 self2 path1 path2 sp1 sp2 ps qs out1 out2,
    read_fdx path1 = Value (Some sp1) -> paragraphs sp1 = Some (Yields ps) ->
    read_fdx path2 = Value (Some sp2) -> paragraphs sp2 = Some (Yields (ps ++ qs)) ->
    completion (parse_file read_fdx self1 path1) = Return out1 ->
    completion (parse_file read_fdx self2 path2) = Return out2 ->
    firstn (List.length ps) out2 = out1 /\
    exists lines,
      printed (parse_file read_fdx self2 path2) =
      printed (parse_file read_fdx self1 path1) ++ lines.
Proof.
  intros read_fdx self1 self2 path1 path2 sp1 sp2 ps qs out1 out2 H1 Hp1 H2 Hp2 Hc1 Hc2.
  rewrite (parse_file_returns _ _ _ _ _ _ H1 Hp1 Hc1).
  rewrite (parse_file_returns _ _ _ _ _ _ H2 Hp2 Hc2).
  rewrite (parse_file_decoded _ _ _ _ _ H1 Hp1), (parse_file_decoded _ _ _ _ _ H2 Hp2).
  cbn [printed]. unfold run_loop at 1 3. rewrite fold_left_app. fold (run_loop ps).
  destruct (fold_loop_body_extends qs (run_loop ps)) as (els & lines & Hels & _ & Hout).
  split.
  - rewrite Hels, <- (inv_length _ _ (run_loop_invariant ps)).
    rewrite firstn_app, Nat.sub_diag, firstn_all. cbn. apply app_nil_r.
  - exists lines. exact Hout.
Qed.

Lemma longer_document_extends_output_witness :
  let ps := [paragraph "Dialogue" "Hi."; paragraph "Character" "BOB"] in
  let qs := [paragraph "Dialogue" "Hello."] in
  let read_fdx := fun path : string =>
    if path =? "short.fdx" then decodes_to ps path else decodes_to (ps ++ qs) path in
  firstn (List.length ps)
    [Action "Hi." 1; Character "BOB" 2; Dialogue (Some "BOB") "Hello." 3] =
  [Action "Hi." 1; Character "BOB" 2] /\
  exists lines,
    printed (parse_file read_fdx new_ScriptParser "long.fdx") =
    printed (parse_file read_fdx new_ScriptParser "short.fdx") ++ lines.
Proof.
  intros ps qs read_fdx.
  apply (longer_document_extends_output read_fdx new_ScriptParser new_ScriptParser
           "short.fdx" "long.fdx"
           {| dir_repr := "['paragraphs']"; paragraphs := Some (Yields ps) |}
           {| dir_repr := "['paragraphs']"; paragraphs := Some (Yields (ps ++ qs)) |}
           ps qs); reflexivity.
Defined.

(** X2.  For five of the six kinds the element depends on nothing but the
    paragraph and its position: a Scene Heading, Character, Parenthetical,
    Action or Transition paragraph at 0-based position [k] yields, at
    position [k], the element of the matching type built from the
    paragraph's text with line number [k + 1], whatever surrounds it. *)
Theorem element_of_context_free_paragraph :
  forall read_fdx self0 path sp ps out k p,
    read_fdx path = Value (Some sp) -> paragraphs sp = Some (Yields ps) ->
    completion (parse_file read_fdx self0 path) = Return out ->
    nth_error ps k = Some p ->
    (paragraph_type p = "Scene Heading" ->
     nth_error out k = Some (SceneHeading (plain_text p) (S k))) /\
    (paragraph_type p = "Character" ->
     nth_error out k = Some (Character (plain_text p) (S k))) /\
    (paragraph_type p = "Parenthetical" ->
     nth_error out k = Some (Parenthetical (plain_text p) (S k))) /\
    (paragraph_type p = "Action" ->
     nth_error out k = Some (Action (plain_text p) (S k))) /\
    (paragraph_type p = "Transition" ->
     nth_error out k =
     Some (mkScriptElement "transition" (Some (plain_text p)) None None (Some (S k)))).
Proof.
  intros read_fdx self0 path sp ps out k p H Hp Hc Hk.
  rewrite (parse_file_returns _ _ _ _ _ _ H Hp Hc).
  pose proof (run_loop_prefix_line ps k
                (Nat.lt_le_incl _ _ (nth_error_lt _ _ _ Hk))) as Hline.
  repeat split; intros Hkind; apply (run_loop_emits ps k p _ Hk).
  - rewrite (loop_body_scene_heading _ _ Hkind). cbn. rewrite Hline. reflexivity.
  - rewrite (loop_body_character _ _ Hkind). cbn. rewrite Hline. reflexivity.
  - rewrite (loop_body_parenthetical _ _ Hkind). cbn. rewrite Hline. reflexivity.
  - rewrite (loop_body_action _ _ Hkind). cbn. rewrite Hline. reflexivity.
  - rewrite (loop_body_transition _ _ Hkind). cbn. rewrite Hline. reflexivity.
Qed.

Lemma element_of_context_free_paragraph_witness :
  let ps := [paragraph "Dialogue" "Hi."; paragraph "Transition" "CUT TO:";
             paragraph "Scene Heading" "INT. ROOM"] in
  let out := [Action "Hi." 1;
              mkScriptElement "transition" (Some "CUT TO:") None None (Some 2);
              SceneHeading "INT. ROOM" 3] in
  nth_error out 1 =
  Some (mkScriptElement "transition" (Some "CUT TO:") None None (Some 2)).
Proof.
  intros ps out.
  apply (element_of_context_free_paragraph (decodes_to ps) new_ScriptParser "cut.fdx"
           {| dir_repr := "['paragraphs']"; paragraphs := Some (Yields ps) |}
           ps out 1 (paragraph "Transition" "CUT TO:")); reflexivity.
Defined.

(** X3.  Which Dialogue paragraphs keep their speaker.  A Dialogue
    paragraph at position [k] that is preceded by a Character paragraph
    with nothing but Parenthetical paragraphs in between yields the
    dialogue element attributed to that character; a Dialogue paragraph
    with no such cue before it yields an action with its text. *)
Theorem dialogue_attribution :
  forall read_fdx self0 path sp ps out k p,
    read_fdx path = Value (Some sp) -> paragraphs sp = Some (Yields ps) ->
    completion (parse_file read_fdx self0 path) = Return out ->
    nth_error ps k = Some p -> paragraph_type p = "Dialogue" ->
    (forall j name, cue_before ps j name k ->
       nth_error out k = Some (Dialogue (Some name) (plain_text p) (S k))) /\
    ((forall j name, ~ cue_before ps j name k) ->
       nth_error out k = Some (Action (plain_text p) (S k))).
Proof.
  intros read_fdx self0 path sp ps out k p H Hp Hc Hk Hkind.
  rewrite (parse_file_returns _ _ _ _ _ _ H Hp Hc).
  pose proof (Nat.lt_le_incl _ _ (nth_error_lt _ _ _ Hk)) as Hle.
  split.
  - intros j name Hcue.
    rewrite (dialogue_at_position_set ps k p _ Hk Hkind (current_after_cue _ _ _ _ Hcue Hle)).
    reflexivity.
  - intros Hno.
    exact (dialogue_at_position_empty ps k p Hk Hkind (current_without_cue ps k Hle Hno)).
Qed.

Lemma dialogue_attribution_witness :
  let ps := [paragraph "Character" "BOB"; paragraph "Parenthetical" "(smiling)";
             paragraph "Parenthetical" "(beat)"; paragraph "Dialogue" "Hi."] in
  let out := [Character "BOB" 1; Parenthetical "(smiling)" 2; Parenthetical "(beat)" 3;
              Dialogue (Some "BOB") "Hi." 4] in
  nth_error out 3 = Some (Dialogue (Some "BOB") "Hi." 4).
Proof.
  intros ps out.
  apply (proj1 (dialogue_attribution (decodes_to ps) new_ScriptParser "beat.fdx"
                  {| dir_repr := "['paragraphs']"; paragraphs := Some (Yields ps) |}
                  ps out 3 (paragraph "Dialogue" "Hi.")
                  eq_refl eq_refl eq_refl eq_refl eq_refl) 0 "BOB").
  split; [lia|]. split.
  - exists (paragraph "Character" "BOB"). repeat split.
  - intros i Hi.
    destruct (Nat.eq_dec i 1) as [->|H1].
    + exists (paragraph "Parenthetical" "(smiling)"). split; reflexivity.
    + assert (i = 2) as -> by lia.
      exists (paragraph "Parenthetical" "(beat)"). split; reflexivity.
Defined.

(** X4.  A speech does not continue over a second paragraph: a Dialogue
    paragraph that opens the document, or that directly follows a paragraph
    that is neither a Character nor a Parenthetical one (a Dialogue
    paragraph, for one), is emitted as an action with its text. *)
Theorem dialogue_after_other_paragraph_is_action :
  forall read_fdx self0 path sp ps out k p,
    read_fdx path = Value (Some sp) -> paragraphs sp = Some (Yields ps) ->
    completion (parse_file read_fdx self0 path) = Return out ->
    nth_error ps k = Some p -> paragraph_type p = "Dialogue" ->
    (k = 0 \/
     exists q, nth_error ps (k - 1) = Some q /\
               paragraph_type q <> "Character" /\
               paragraph_type q <> "Parenthetical") ->
    nth_error out k = Some (Action (plain_text p) (S k)).
Proof.
  intros read_fdx self0 path sp ps out k p H Hp Hc Hk Hkind Hprev.
  rewrite (parse_file_returns _ _ _ _ _ _ H Hp Hc).
  apply (dialogue_at_position_empty ps k p Hk Hkind).
  apply current_without_cue; [apply Nat.lt_le_incl, (nth_error_lt _ _ _ Hk)|].
  intros j name (Hjk & (pj & Hpj & Hpjk & _) & Hbetween).
  destruct Hprev as [->|(q & Hq & Hqc & Hqp)]; [lia|].
  destruct (Nat.eq_dec j (k - 1)) as [->|Hne].
  - congruence.
  - destruct (Hbetween (k - 1) ltac:(lia)) as (p' & Hp' & Hp'k). congruence.
Qed.

Lemma dialogue_after_other_paragraph_is_action_witness :
  let ps := [paragraph "Character" "BOB"; paragraph "Dialogue" "Hi.";
             paragraph "Dialogue" "How are you?"] in
  let out := [Character "BOB" 1; Dialogue (Some "BOB") "Hi." 2;
              Action "How are you?" 3] in
  nth_error out 2 = Some (Action "How are you?" 3).
Proof.
  intros ps out.
  apply (dialogue_after_other_paragraph_is_action (decodes_to ps) new_ScriptParser
           "speech.fdx" {| dir_repr := "['paragraphs']"; paragraphs := Some (Yields ps) |}
           ps out 2 (paragraph "Dialogue" "How are you?")); try reflexivity.
  right. exists (paragraph "Dialogue" "Hi."). cbn.
  repeat split; discriminate.
Defined.

(** X5.  Every element carries the text of its own paragraph and its
    position, in the fields that go with its type: a character element has
    the text as its name and no text; a dialogue element has the text both
    as [text] and as [dialogue_text] and always a speaker's name; an element
    of any of the four other types has the text as [text] and neither a
    name nor a dialogue text.  No other type is ever emitted. *)
Theorem element_fields :
  forall read_fdx self0 path sp ps out k p e,
    read_fdx path = Value (Some sp) -> paragraphs sp = Some (Yields ps) ->
    completion (parse_file read_fdx self0 path) = Return out ->
    nth_error ps k = Some p -> nth_error out k = Some e ->
    original_line_num e = Some (S k) /\
    ( (type e = "character" /\ character_name e = Some (plain_text p) /\
       text e = None /\ dialogue_text e = None)
   \/ (type e = "dialogue" /\ text e = Some (plain_text p) /\
       dialogue_text e = Some (plain_text p) /\
       exists name, character_name e = Some name)
   \/ (In (type e) ["scene_heading"; "parenthetical"; "action"; "transition"] /\
       text e = Some (plain_text p) /\
       character_name e = None /\ dialogue_text e = None) ).
Proof.
  intros read_fdx self0 path sp ps out k p e H Hp Hc Hk He.
  rewrite (parse_file_returns _ _ _ _ _ _ H Hp Hc) in He.
  destruct (loop_body_step (run_loop (firstn k ps)) p) as (e' & Hout & _ & Hline & Hshape).
  rewrite (run_loop_emits ps k p e' Hk Hout) in He. injection He as <-.
  rewrite run_loop_prefix_line in Hline
    by (apply Nat.lt_le_incl, (nth_error_lt _ _ _ Hk)).
  split; [exact Hline|].
  destruct Hshape as [Hch|[(Hty & Htx & Hdt & c & Hcur & Hname)|Hother]]; auto.
  right; left. repeat split; auto.
  destruct (inv_current _ _ (run_loop_invariant (firstn k ps)) c Hcur)
    as (j & name & _ & _ & _ & Hcn & _).
  exists name. congruence.
Qed.

Lemma element_fields_witness :
  let ps := [paragraph "Character" "BOB"; paragraph "Dialogue" "Hi."] in
  let e := Dialogue (Some "BOB") "Hi." 2 in
  original_line_num e = Some 2 /\
  ( (type e = "character" /\ character_name e = Some "Hi." /\
     text e = None /\ dialogue_text e = None)
 \/ (type e = "dialogue" /\ text e = Some "Hi." /\ dialogue_text e = Some "Hi." /\
     exists name, character_name e = Some name)
 \/ (In (type e) ["scene_heading"; "parenthetical"; "action"; "transition"] /\
     text e = Some "Hi." /\ character_name e = None /\ dialogue_text e = None) ).
Proof.
  intros ps e.
  apply (element_fields (decodes_to ps) new_ScriptParser "bob.fdx"
           {| dir_repr := "['paragraphs']"; paragraphs := Some (Yields ps) |}
           ps [Character "BOB" 1; e] 1 (paragraph "Dialogue" "Hi.") e); reflexivity.
Defined.

Lemma combine_snoc {A B} (l : list A) (l' : list B) a b :
  List.length l = List.length l' ->
  combine (l ++ [a]) (l' ++ [b]) = combine l l' ++ [(a, b)].
Proof.
  revert l'. induction l as [|x l IH]; intros [|y l'] H; try discriminate.
  - reflexivity.
  - cbn. f_equal. apply IH. cbn in H. lia.
Qed.

Lemma run_loop_stdout ps :
  stdout (run_loop ps) = warnings_of ps (parsed_elements (self (run_loop ps))).
Proof.
  induction ps as [|p ps IH] using rev_ind.
  - reflexivity.
  - pose proof (run_loop_invariant ps) as [Hlen Hline _ _ _].
    rewrite run_loop_snoc.
    destruct (loop_body_step (run_loop ps) p) as (e & Hout & Hprint & _).
    rewrite Hprint, Hout, IH. unfold warnings_of.
    rewrite length_app, Nat.add_1_r, seq_S, combine_snoc by auto.
    rewrite combine_snoc by (rewrite length_seq, length_combine; lia).
    rewrite flat_map_app. cbn [flat_map fst snd]. rewrite app_nil_r, Hline.
    reflexivity.
Qed.

(** X6.  What a successful parse prints is exactly the list of warnings
    for its downgraded dialogues: one line for each Dialogue paragraph that
    came out as an action, in document order, naming the paragraph's
    1-based position and quoting its text; a document in which no dialogue
    is downgraded prints nothing. *)
Theorem printed_lines_are_the_dialogue_warnings :
  forall read_fdx self0 path sp ps out,
    read_fdx path = Value (Some sp) -> paragraphs sp = Some (Yields ps) ->
    completion (parse_file read_fdx self0 path) = Return out ->
    printed (parse_file read_fdx self0 path) = warnings_of ps out.
Proof.
  intros read_fdx self0 path sp ps out H Hp Hc.
  rewrite (parse_file_returns _ _ _ _ _ _ H Hp Hc).
  rewrite (parse_file_decoded _ _ _ _ _ H Hp). cbn [printed].
  apply run_loop_stdout.
Qed.

Lemma printed_lines_are_the_dialogue_warnings_witness :
  let ps := [paragraph "Dialogue" "Hi."; paragraph "Action" "Bob waves.";
             paragraph "Dialogue" "Bye."] in
  printed (parse_file (decodes_to ps) new_ScriptParser "hi.fdx") =
  ["Warning: Dialogue found without preceding character at line 1: 'Hi.'";
   "Warning: Dialogue found without preceding character at line 3: 'Bye.'"].
Proof.
  intros ps.
  rewrite (printed_lines_are_the_dialogue_warnings (decodes_to ps) new_ScriptParser
             "hi.fdx" {| dir_repr := "['paragraphs']"; paragraphs := Some (Yields ps) |}
             ps [Action "Hi." 1; Action "Bob waves." 2; Action "Bye." 3]);
    reflexivity.
Defined.

(** ** Further properties of [parse_file] as a whole *)






(** X9.  The current character is not discarded when the parse ends.  After
    a successful parse the parser object still refers to a character
    element exactly when the document ends with a Character paragraph
    followed by nothing but Parenthetical paragraphs, and that element is
    the one made from this paragraph. *)
Theorem current_character_left_after_parse :
  forall read_fdx self0 path sp ps c,
    read_fdx path = Value (Some sp) -> paragraphs sp = Some (Yields ps) ->
    (_current_character_element (self_after (parse_file read_fdx self0 path)) = Some c <->
     exists j name, cue_before ps j name (List.length ps) /\ c = Character name (S j)).
Proof.
  intros read_fdx self0 path sp ps c H Hp.
  rewrite (parse_file_decoded _ _ _ _ _ H Hp). cbn [self_after].
  split.
  - intros Hc.
    destruct (inv_current _ _ (run_loop_invariant ps) c Hc) as (j & name & Hcue).
    apply cue_reaches_before in Hcue. exists j, name. split; [exact Hcue|].
    pose proof (current_after_cue ps j name _ Hcue (Nat.le_refl _)) as Hc'.
    rewrite firstn_all in Hc'. congruence.
  - intros (j & name & Hcue & ->).
    pose proof (current_after_cue ps j name _ Hcue (Nat.le_refl _)) as Hc'.
    rewrite firstn_all in Hc'. exact Hc'.
Qed.

Lemma current_character_left_after_parse_witness :
  let ps := [paragraph "Action" "Bob enters."; paragraph "Character" "BOB";
             paragraph "Parenthetical" "(smiling)"] in
  exists j name, cue_before ps j name (List.length ps) /\
                 Character "BOB" 2 = Character name (S j).
Proof.
  intros ps.
  apply (proj1 (current_character_left_after_parse (decodes_to ps) new_ScriptParser
                  "bob.fdx" {| dir_repr := "['paragraphs']"; paragraphs := Some (Yields ps) |}
                  ps (Character "BOB" 2) eq_refl eq_refl)).
  reflexivity.
Defined.

(** ** Properties of [__repr__] *)

Lemma len_append (s1 s2 : string) : len (s1 ++ s2)%string = len s1 + len s2.
Proof.
  induction s1 as [|c s1 IH]; cbn; [reflexivity|].
  destruct (continuation_byte c); rewrite IH; reflexivity.
Qed.

Lemma append_assoc (s1 s2 s3 : string) :
  ((s1 ++ s2) ++ s3 = s1 ++ (s2 ++ s3))%string.
Proof. induction s1 as [|c s1 IH]; cbn; [reflexivity|]. rewrite IH. reflexivity. Qed.

Lemma append_empty (s : string) : (s ++ EmptyString)%string = s.
Proof. induction s as [|c s IH]; cbn; [reflexivity|]. rewrite IH. reflexivity. Qed.

(** A slice that is long enough is the whole string. *)
Lemma slice_to_whole (n : nat) (s : string) : len s <= n -> slice_to n s = s.
Proof.
  revert n. induction s as [|c s IH]; intros n H; cbn in *; [reflexivity|].
  destruct (continuation_byte c).
  - f_equal. apply IH. exact H.
  - destruct n as [|n]; [lia|]. f_equal. apply IH. lia.
Qed.

(** A slice never has more code points than asked for. *)
Lemma len_slice_to (n : nat) (s : string) : len (slice_to n s) <= n.
Proof.
  revert n. induction s as [|c s IH]; intros n; cbn; [lia|].
  destruct (continuation_byte c) eqn:Hc.
  - cbn. rewrite Hc. apply IH.
  - destruct n as [|n]; cbn; [lia|]. rewrite Hc. specialize (IH n). lia.
Qed.

Lemma len_preview (s : string) : len (preview s) <= 53.
Proof.
  unfold preview. rewrite len_append.
  pose proof (len_slice_to 50 s).
  destruct (Nat.ltb 50 (len s)); cbn; lia.
Qed.

Lemma preview_short (s : string) : len s <= 50 -> preview s = s.
Proof.
  intros H. unfold preview. rewrite (slice_to_whole 50 s H).
  destruct (Nat.ltb_spec 50 (len s)); [lia|]. apply append_empty.
Qed.

Lemma preview_long (s : string) :
  50 < len s -> preview s = (slice_to 50 s ++ "...")%string.
Proof.
  intros H. unfold preview.
  destruct (Nat.ltb_spec 50 (len s)); [reflexivity|lia].
Qed.

(** X10.  Except for a character element with a name, whose name is shown
    whole, the text an element prints as is bounded whatever the length of
    its fields: counted in characters as [len] counts them, it has at most
    59 more than its type, because text and dialogue text are cut at 50
    characters. *)
Theorem repr_length_bounded :
  forall e,
    (type e = "character" -> nonempty (character_name e) = None) ->
    len (__repr__ e) <= len (type e) + 59.
Proof.
  intros e Hname. unfold __repr__.
  assert (Hfirst : (if (type e =? "character")%string
                    then nonempty (character_name e) else None) = None).
  { destruct (String.eqb_spec (type e) "character") as [Hc|Hc]; auto. }
  rewrite Hfirst.
  destruct (if (type e =? "dialogue")%string then nonempty (dialogue_text e) else None)
    as [d|]; [|destruct (nonempty (text e)) as [t|]];
    repeat (rewrite len_append; cbn [len continuation_byte]);
    try pose proof (len_preview d); try pose proof (len_preview t); lia.
Qed.

Lemma repr_length_bounded_witness :
  len
    (__repr__ (Action
       "Une très longue description de la pièce, des meubles, de la lumière et du temps." 1))
  <= len "action" + 59.
Proof.
  apply (repr_length_bounded
           (Action
              "Une très longue description de la pièce, des meubles, de la lumière et du temps."
              1)).
  cbn. discriminate.
Defined.

(** The fields of the element at position [k], by its type. *)
Lemma run_loop_element_shape ps k p e :
  nth_error ps k = Some p ->
  nth_error (parsed_elements (self (run_loop ps))) k = Some e ->
  (type e = "character" /\ character_name e = Some (plain_text p) /\
   text e = None /\ dialogue_text e = None)
  \/ (type e = "dialogue" /\ text e = Some (plain_text p) /\
      dialogue_text e = Some (plain_text p))
  \/ (In (type e) ["scene_heading"; "parenthetical"; "action"; "transition"] /\
      text e = Some (plain_text p) /\
      character_name e = None /\ dialogue_text e = None).
Proof.
  intros Hk He.
  destruct (loop_body_step (run_loop (firstn k ps)) p) as (e' & Hout & _ & _ & Hshape).
  rewrite (run_loop_emits ps k p e' Hk Hout) in He. injection He as <-.
  destruct Hshape as [Hch|[(Hty & Htx & Hdt & _)|Hother]]; auto.
Qed.

(** X11.  How an emitted element prints, from its paragraph alone.  An
    element made from a paragraph with empty text prints as its bare type.
    A character element prints its whole name, however long.  Any other
    element prints its text between quotes: in full when it has at most 50
    characters, else its first 50 characters followed by three dots, where
    characters are code points, not bytes.  A dialogue element never prints
    its speaker. *)
Theorem repr_of_emitted_element :
  forall read_fdx self0 path sp ps out k p e,
    read_fdx path = Value (Some sp) -> paragraphs sp = Some (Yields ps) ->
    completion (parse_file read_fdx self0 path) = Return out ->
    nth_error ps k = Some p -> nth_error out k = Some e ->
    (plain_text p = EmptyString ->
     __repr__ e = ("<" ++ type e ++ ">")%string) /\
    (plain_text p <> EmptyString -> type e = "character" ->
     __repr__ e = ("<character: " ++ plain_text p ++ ">")%string) /\
    (plain_text p <> EmptyString -> type e <> "character" ->
     len (plain_text p) <= 50 ->
     __repr__ e = ("<" ++ type e ++ ": '" ++ plain_text p ++ "'>")%string) /\
    (plain_text p <> EmptyString -> type e <> "character" ->
     50 < len (plain_text p) ->
     __repr__ e =
     ("<" ++ type e ++ ": '" ++ slice_to 50 (plain_text p) ++ "...'>")%string).
Proof.
  intros read_fdx self0 path sp ps out k p e H Hp Hc Hk He.
  rewrite (parse_file_returns _ _ _ _ _ _ H Hp Hc) in He.
  pose proof (run_loop_element_shape ps k p e Hk He) as Hshape.
  assert (Hrepr :
            (plain_text p = EmptyString -> __repr__ e = ("<" ++ type e ++ ">")%string) /\
            (plain_text p <> EmptyString -> type e = "character" ->
             __repr__ e = ("<character: " ++ plain_text p ++ ">")%string) /\
            (plain_text p <> EmptyString -> type e <> "character" ->
             __repr__ e = ("<" ++ type e ++ ": '" ++ preview (plain_text p) ++ "'>")%string)).
  { destruct e as [ty tx cn dt ln]. cbn [type text character_name dialogue_text] in *.
    unfold __repr__. cbn [type text character_name dialogue_text].
    destruct Hshape as [(-> & -> & -> & ->)
                       |[(-> & -> & ->)|(Hty & -> & -> & ->)]].
    - cbn. destruct (plain_text p) as [|c s]; cbn; repeat split;
        intros; try reflexivity; congruence.
    - cbn. destruct (plain_text p) as [|c s]; cbn; repeat split;
        intros; try reflexivity; congruence.
    - cbn in Hty. destruct Hty as [<-|[<-|[<-|[<-|[]]]]]; cbn;
        destruct (plain_text p) as [|c s]; cbn; repeat split;
          intros; try reflexivity; congruence. }
  destruct Hrepr as (Hempty & Hchar & Hother).
  split; [exact Hempty|]. split; [exact Hchar|]. split.
  - intros Hne Hty Hlen. rewrite (Hother Hne Hty), (preview_short _ Hlen). reflexivity.
  - intros Hne Hty Hlen. rewrite (Hother Hne Hty), (preview_long _ Hlen).
    rewrite append_assoc. reflexivity.
Qed.

Lemma repr_of_emitted_element_witness :
  let long := "I have been waiting in this room for more than three hours now." in
  let accents := "Où étais-tu passé, André ? Ça fait déjà très..." in
  let ps := [paragraph "Character" "BOB"; paragraph "Dialogue" long;
             paragraph "Action" accents] in
  let e := Dialogue (Some "BOB") long 2 in
  __repr__ e = ("<" ++ type e ++ ": '" ++ slice_to 50 long ++ "...'>")%string /\
  __repr__ (Character "BOB" 1) = "<character: BOB>" /\
  __repr__ (Action accents 3) = ("<action: '" ++ accents ++ "'>")%string.
Proof.
  intros long accents ps e.
  pose proof (repr_of_emitted_element (decodes_to ps) new_ScriptParser "wait.fdx"
                {| dir_repr := "['paragraphs']"; paragraphs := Some (Yields ps) |}
                ps [Character "BOB" 1; e; Action accents 3]) as Hrepr.
  split; [|split].
  - apply (Hrepr 1 (paragraph "Dialogue" long) e); try reflexivity.
    + cbn. discriminate.
    + cbn. discriminate.
    + cbn. lia.
  - apply (Hrepr 0 (paragraph "Character" "BOB") (Character "BOB" 1)); try reflexivity.
    cbn. discriminate.
  - apply (Hrepr 2 (paragraph "Action" accents) (Action accents 3)); try reflexivity.
    + cbn. discriminate.
    + cbn. discriminate.
    + cbn. lia.
Defined.

(** ** Properties of the entry point *)

Lemma repr_starts_with_bracket e : exists s, __repr__ e = String "<"%char s.
Proof.
  unfold __repr__.
  destruct (if (type e =? "character")%string then nonempty (character_name e) else None);
    [|destruct (if (type e =? "dialogue")%string then nonempty (dialogue_text e) else None);
      [|destruct (nonempty (text e))]];
    cbn; eauto.
Qed.

Lemma parse_file_nonempty read_fdx self0 path e l :
  completion (parse_file read_fdx self0 path) = Return (e :: l) ->
  exists sp ps, read_fdx path = Value (Some sp) /\ paragraphs sp = Some (Yields ps).
Proof.
  unfold parse_file. destruct (read_fdx path) as [x|[sp|]].
  - destruct (exc_class x); cbn; discriminate.
  - destruct (paragraphs sp) as [[ps|ps x]|] eqn:Hps; cbn; [eauto| |discriminate].
    destruct (exc_class x); cbn; discriminate.
  - cbn. discriminate.
Qed.

Lemma warnings_start_with_W ps out line :
  In line (warnings_of ps out) -> exists s, line = String "W"%char s.
Proof.
  unfold warnings_of. intros H. apply in_flat_map in H.
  destruct H as (npe & _ & H). destruct (downgraded (snd npe)); [|destruct H].
  destruct H as [<-|[]]. cbn. eauto.
Qed.

(** X12.  When the script file exists and decodes to at least one
    paragraph, the entry point calls [print], in this order, with: the
    announcement of the path, the warnings of the parse, the header, the
    [__repr__] of each element, and the timing; that is three calls more
    than warnings and paragraphs together, and no exception escapes.  The
    header and the timing start with a newline, so each of these two calls
    writes an empty line first. *)
Theorem main_lists_every_element :
  forall os_path_join os_path_exists read_fdx elapsed sp ps out,
    let script := os_path_join script_dir script_file in
    os_path_exists script = true ->
    read_fdx script = Value (Some sp) -> paragraphs sp = Some (Yields ps) -> ps <> [] ->
    completion (parse_file read_fdx new_ScriptParser script) = Return out ->
    let r := main os_path_join os_path_exists read_fdx elapsed in
    main_stdout r =
    ("Attempting to parse FDX script from: " ++ script)%string ::
    warnings_of ps out ++
    (newline ++ "--- Parsed Script Elements ---")%string ::
    map __repr__ out ++
    [(newline ++ "Finished FDX script parsing test. Parsing took: "
      ++ elapsed ++ " seconds.")%string] /\
    main_raised r = None /\
    List.length (main_stdout r) =
    List.length (warnings_of ps out) + List.length ps + 3.
Proof.
  intros os_path_join os_path_exists read_fdx elapsed sp ps out script
         Hex H Hp Hne Hc r.
  pose proof (parse_file_returns _ _ _ _ _ _ H Hp Hc) as Hout.
  pose proof (inv_length _ _ (run_loop_invariant ps)) as Hlen. rewrite <- Hout in Hlen.
  assert (Hmain : r = mkMainRun
            (("Attempting to parse FDX script from: " ++ script)%string ::
             warnings_of ps out ++
             (newline ++ "--- Parsed Script Elements ---")%string ::
             map __repr__ out ++
             [(newline ++ "Finished FDX script parsing test. Parsing took: "
               ++ elapsed ++ " seconds.")%string]) None).
  { subst r. unfold main. fold script_dir script_file. fold script.
    rewrite Hex. cbn [negb]. rewrite Hc.
    rewrite (parse_file_decoded _ _ _ _ _ H Hp). cbn [printed].
    rewrite run_loop_stdout, <- Hout.
    destruct out as [|e l].
    - destruct ps; [congruence|discriminate].
    - reflexivity. }
  rewrite Hmain. cbn [main_stdout main_raised]. repeat split.
  cbn [List.length]. rewrite length_app. cbn [List.length].
  rewrite length_app, length_map. cbn [List.length]. lia.
Qed.

Lemma main_lists_every_element_witness :
  let ps := [paragraph "Character" "BOB"; paragraph "Dialogue" "Hi.";
             paragraph "Dialogue" "Bye."] in
  let r := main (fun d f => (d ++ "/" ++ f)%string) (fun _ => true) (decodes_to ps) "0.0012" in
  main_stdout r =
  ["Attempting to parse FDX script from: scripts/The Purloined Millstone by E.A. Sprechmann.fdx";
   "Warning: Dialogue found without preceding character at line 3: 'Bye.'";
   (newline ++ "--- Parsed Script Elements ---")%string;
   "<character: BOB>"; "<dialogue: 'Hi.'>"; "<action: 'Bye.'>";
   (newline ++ "Finished FDX script parsing test. Parsing took: 0.0012 seconds.")%string].
Proof.
  intros ps r.
  destruct (main_lists_every_element (fun d f => (d ++ "/" ++ f)%string) (fun _ => true)
              (decodes_to ps) "0.0012"
              {| dir_repr := "['paragraphs']"; paragraphs := Some (Yields ps) |} ps
              [Character "BOB" 1; Dialogue (Some "BOB") "Hi." 2; Action "Bye." 3]
              eq_refl eq_refl eq_refl ltac:(discriminate) eq_refl) as (Hout & _ & _).
  exact Hout.
Defined.

(** X13.  When the script file exists and no exception escapes, the entry
    point prints the line "No elements parsed." exactly when [parse_file]
    returned the empty list; no warning, diagnostic or element can be
    mistaken for it. *)
Theorem main_says_no_elements_iff_empty_result :
  forall os_path_join os_path_exists read_fdx elapsed,
    let script := os_path_join script_dir script_file in
    let r := main os_path_join os_path_exists read_fdx elapsed in
    os_path_exists script = true -> main_raised r = None ->
    (In "No elements parsed." (main_stdout r) <->
     completion (parse_file read_fdx new_ScriptParser script) = Return []).
Proof.
  intros os_path_join os_path_exists read_fdx elapsed script r Hex Hnone.
  subst r. unfold main in Hnone |- *.
  fold script_dir script_file in Hnone |- *. fold script in Hnone |- *.
  rewrite Hex in Hnone |- *. cbn [negb] in Hnone |- *.
  destruct (completion (parse_file read_fdx new_ScriptParser script))
    as [out|e] eqn:Hc; [|discriminate Hnone].
  cbn [main_stdout]. destruct out as [|e l].
  - split; [reflexivity|]. intros _.
    apply in_or_app. right. apply in_or_app. right.
    apply in_or_app. right. left. reflexivity.
  - split; [|discriminate]. intros Hin. exfalso.
    destruct (parse_file_nonempty _ _ _ _ _ Hc) as (sp & ps & H & Hp).
    rewrite (parse_file_decoded _ _ _ _ _ H Hp) in Hin. cbn [printed] in Hin.
    rewrite run_loop_stdout in Hin.
    apply in_app_or in Hin. destruct Hin as [[Hin|[]]|Hin]; [discriminate Hin|].
    apply in_app_or in Hin. destruct Hin as [Hin|Hin].
    { apply warnings_start_with_W in Hin. destruct Hin as (s & Hs). discriminate Hs. }
    apply in_app_or in Hin. destruct Hin as [[Hin|[]]|Hin]; [discriminate Hin|].
    apply in_app_or in Hin. destruct Hin as [Hin|[Hin|[]]]; [|discriminate Hin].
    apply in_map_iff in Hin. destruct Hin as (x & Hx & _).
    destruct (repr_starts_with_bracket x) as (s & Hs). rewrite Hs in Hx. discriminate Hx.
Qed.

Lemma main_says_no_elements_iff_empty_result_witness :
  In "No elements parsed."
    (main_stdout (main (fun d f => (d ++ "/" ++ f)%string) (fun _ => true)
                    (fun _ => Raise (mkException Exception "not well-formed"))
                    "0.0003")).
Proof.
  apply (proj2 (main_says_no_elements_iff_empty_result
                  (fun d f => (d ++ "/" ++ f)%string) (fun _ => true)
                  (fun _ => Raise (mkException Exception "not well-formed"))
                  "0.0003" eq_refl eq_refl)).
  reflexivity.
Defined.



(** ** Counting *)

Lemma count_type_snoc ty out e :
  count_type ty (out ++ [e]) =
  count_type ty out + (if (type e =? ty)%string then 1 else 0).
Proof.
  unfold count_type. rewrite filter_app, length_app. cbn [filter].
  destruct (type e =? ty)%string; reflexivity.
Qed.

Lemma count_kind_snoc kind ps p :
  count_kind kind (ps ++ [p]) =
  count_kind kind ps + (if (paragraph_type p =? kind)%string then 1 else 0).
Proof.
  unfold count_kind. rewrite filter_app, length_app. cbn [filter].
  destruct (paragraph_type p =? kind)%string; reflexivity.
Qed.

(** Each character cue pays for at most one dialogue, and a cue that is
    still current has not been spent. *)
Lemma dialogue_budget ps :
  count_type "dialogue" (parsed_elements (self (run_loop ps))) +
  match _current_character_element (self (run_loop ps)) with
  | Some _ => 1
  | None => 0
  end <=
  count_type "character" (parsed_elements (self (run_loop ps))).
Proof.
  induction ps as [|p ps IH] using rev_ind.
  - cbn. lia.
  - rewrite run_loop_snoc.
    destruct (loop_body_cases (run_loop ps) p) as (e & Hout & _ & _ & Hsort).
    rewrite Hout, !count_type_snoc.
    destruct Hsort as [(_ & Hty & _ & Hcur)
                      |[(_ & Hty & Hcur)
                      |[(_ & Hty & (c & Hc & _) & Hcur)
                       |(_ & _ & Hnc & _ & Hnd & Hcur)]]];
      rewrite Hcur.
    + rewrite Hty. cbn.
      destruct (_current_character_element (self (run_loop ps))); lia.
    + rewrite Hty. cbn. lia.
    + rewrite Hty. rewrite Hc in IH. cbn. lia.
    + apply String.eqb_neq in Hnc, Hnd. rewrite Hnc, Hnd.
      destruct (_current_character_element (self (run_loop ps))); lia.
Qed.

(** X15.  There are never more dialogue elements than character elements
    in the output: each character cue is used up by the first dialogue
    that follows it. *)
Theorem no_more_dialogues_than_characters :
  forall read_fdx self0 path sp ps out,
    read_fdx path = Value (Some sp) -> paragraphs sp = Some (Yields ps) ->
    completion (parse_file read_fdx self0 path) = Return out ->
    count_type "dialogue" out <= count_type "character" out.
Proof.
  intros read_fdx self0 path sp ps out H Hp Hc.
  rewrite (parse_file_returns _ _ _ _ _ _ H Hp Hc).
  pose proof (dialogue_budget ps). lia.
Qed.

Lemma no_more_dialogues_than_characters_witness :
  let out := [Character "BOB" 1; Dialogue (Some "BOB") "Hi." 2; Action "Bye." 3;
              Character "ANN" 4] in
  count_type "dialogue" out <= count_type "character" out.
Proof.
  intros out.
  apply (no_more_dialogues_than_characters
           (decodes_to [paragraph "Character" "BOB"; paragraph "Dialogue" "Hi.";
                        paragraph "Dialogue" "Bye."; paragraph "Character" "ANN"])
           new_ScriptParser "ann.fdx"
           {| dir_repr := "['paragraphs']";
              paragraphs := Some (Yields [paragraph "Character" "BOB"; paragraph "Dialogue" "Hi.";
                                          paragraph "Dialogue" "Bye.";
                                          paragraph "Character" "ANN"]) |}
           [paragraph "Character" "BOB"; paragraph "Dialogue" "Hi.";
            paragraph "Dialogue" "Bye."; paragraph "Character" "ANN"]);
    reflexivity.
Defined.

Lemma dialogue_accounting ps :
  count_kind "Dialogue" ps =
  count_type "dialogue" (parsed_elements (self (run_loop ps))) +
  List.length (stdout (run_loop ps)).
Proof.
  induction ps as [|p ps IH] using rev_ind.
  - reflexivity.
  - rewrite run_loop_snoc, count_kind_snoc.
    destruct (String.eqb_spec (paragraph_type p) "Dialogue") as [Hk|Hk].
    + destruct (_current_character_element (self (run_loop ps))) as [c|] eqn:Hc.
      * rewrite (loop_body_dialogue_set _ _ _ Hk Hc). cbn [self stdout append_and_set
          parsed_elements]. rewrite count_type_snoc. cbn. lia.
      * rewrite (loop_body_dialogue_empty _ _ Hk Hc). cbn [self stdout append_and_set
          parsed_elements print]. rewrite count_type_snoc, length_app. cbn. lia.
    + destruct (loop_body_step (run_loop ps) p) as (e & Hout & Hprint & _).
      destruct (loop_body_cases (run_loop ps) p) as (e' & Hout' & _ & _ & Hsort).
      rewrite Hout in Hout'. apply app_inv_head in Hout'. injection Hout' as <-.
      rewrite Hout, Hprint, count_type_snoc, length_app.
      unfold downgraded. cbn [fst snd].
      apply String.eqb_neq in Hk. rewrite Hk. cbn [andb List.length].
      assert (Hnd : (type e =? "dialogue")%string = false).
      { apply String.eqb_neq in Hk. apply String.eqb_neq.
        destruct Hsort as [(_ & Hty & _)
                          |[(_ & Hty & _)
                          |[(Hkd & _)|(_ & _ & _ & _ & Hty & _)]]];
          congruence. }
      rewrite Hnd. lia.
Qed.

(** X16.  No Dialogue paragraph goes unaccounted for: each one becomes
    either a dialogue element or an action announced by a warning, so the
    number of Dialogue paragraphs is the number of dialogue elements plus
    the number of lines printed. *)
Theorem every_dialogue_paragraph_is_attributed_or_warned :
  forall read_fdx self0 path sp ps out,
    read_fdx path = Value (Some sp) -> paragraphs sp = Some (Yields ps) ->
    completion (parse_file read_fdx self0 path) = Return out ->
    count_kind "Dialogue" ps =
    count_type "dialogue" out +
    List.length (printed (parse_file read_fdx self0 path)).
Proof.
  intros read_fdx self0 path sp ps out H Hp Hc.
  rewrite (parse_file_returns _ _ _ _ _ _ H Hp Hc).
  rewrite (parse_file_decoded _ _ _ _ _ H Hp). cbn [printed].
  apply dialogue_accounting.
Qed.

Lemma every_dialogue_paragraph_is_attributed_or_warned_witness :
  let ps := [paragraph "Character" "BOB"; paragraph "Dialogue" "Hi.";
             paragraph "Dialogue" "Bye."] in
  count_kind "Dialogue" ps =
  count_type "dialogue" [Character "BOB" 1; Dialogue (Some "BOB") "Hi." 2; Action "Bye." 3] +
  List.length (printed (parse_file (decodes_to ps) new_ScriptParser "bye.fdx")).
Proof.
  intros ps.
  apply (every_dialogue_paragraph_is_attributed_or_warned (decodes_to ps) new_ScriptParser
           "bye.fdx" {| dir_repr := "['paragraphs']"; paragraphs := Some (Yields ps) |} ps);
    reflexivity.
Defined.
